(** * ChatGateway: connection registry, signal routing and deduplication

    A shallow embedding of the second [ChatGateway] class of the chat module
    (the one that tracks [userSockets] and [recentSignals]): the handlers
    [handleConnection], [handleDisconnect], [onJoinRoom], [onLeaveRoom],
    [onSendText], [onSignal] and the helpers [sendToUser],
    [isDuplicateSignal], [hashPayload], [cleanupRecentSignals],
    [isUserOnline].

    The gateway object and the socket.io server are one explicit state
    ([Gateway]); a handler is a function from that state to a reply, the
    next state and the list of effects it performed (emits and calls to the
    message service), in program order.  A handler runs to completion;
    [Date.now()] is the argument [now], in milliseconds.

    A string is a sequence of 8-bit characters, one for each UTF-16 code
    unit.  User ids and socket ids are strings, as [userSockets] declares
    them ([Map<string, Set<string>>]). *)

From Stdlib Require Import ZArith String Ascii.
From stdpp Require Import gmap strings list fin_maps.

Local Open Scope string_scope.
Local Open Scope Z_scope.
Local Open Scope list_scope.

(** ** JavaScript values

    Handler bodies are typed [any].  Strings, [undefined] and [null] are
    modelled as they are; every other value (numbers, booleans, objects,
    arrays) is an [Other], of which the gateway only uses what the host
    gives: the truthiness, the template-literal conversion and
    [JSON.stringify]. *)

Class JsHost (Other : Type) := {
  (** [!!v] *)
  other_truthy : Other → bool;
  (** [`${v}`] *)
  other_toString : Other → string;
  (** [JSON.stringify(v)]; [None] when it throws or yields no string. *)
  other_stringify : Other → option string;
  (** [String.prototype.toLowerCase] *)
  toLowerCase : string → string;
  (** The message of the TypeError raised by [v.toLowerCase()] on a value
      without that method. *)
  toLowerCase_type_error : string;
}.

(** The injected [JwtService] and [MessageService]. *)

(** The fields of a verified token that name the user; [None] for a field
    the payload does not have. *)
Record JwtPayload := {
  jwt_id : option string;
  jwt_sub : option string;
  jwt_userId : option string;
}.

(** [Msg] and [SigMsg] are the persisted chat message and call signal. *)
Class Services (Body SignalBody Msg SigMsg : Type) := {
  (** [jwtService.verify(token, {secret})]; [None] when it throws. *)
  jwt_verify : string → option JwtPayload;
  (** [messageService.sendText(body, user)]; [inl m] when it throws an
      error whose message is [m]. *)
  messageService_sendText : Body → JwtPayload → string + Msg;
  (** [messageService.sendSignal(body, user)] *)
  messageService_sendSignal : SignalBody → JwtPayload → string + SigMsg;
}.

Section Gateway.
Context {Other Msg SigMsg : Type} {Host : JsHost Other}.

Inductive JsVal :=
| VUndefined
| VNull
| VStr (s : string)
| VOther (o : Other).

Definition truthy (v : JsVal) : bool :=
  match v with
  | VUndefined | VNull => false
  | VStr s => negb (String.eqb s "")
  | VOther o => other_truthy o
  end.

(** Conversion inside a template literal. *)
Definition toStr (v : JsVal) : string :=
  match v with
  | VUndefined => "undefined"
  | VNull => "null"
  | VStr s => s
  | VOther o => other_toString o
  end.

(** The [sendText] message body, an object; a field it does not have reads
    as [VUndefined]. *)
Record Body := {
  messageType : JsVal;
  signalType : JsVal;
  senderId : JsVal;
  targetId : JsVal;
  roomId : JsVal;
  data : JsVal;
  content : JsVal;
}.

(** The [signal] message body. *)
Record SignalBody := {
  sig_roomId : JsVal;
  sig_senderModel : JsVal;
  sig_senderId : JsVal;
  sig_type : JsVal;
  sig_payload : JsVal;
}.

Context {Svc : Services Body SignalBody Msg SigMsg}.

(** ** Sockets, effects and the gateway state *)

Record Socket := {
  sock_id : string;
  (** [client.data.user] *)
  sock_user : option JwtPayload;
  (** [socket.rooms] *)
  sock_rooms : gset string;
}.

(** What an emit carries. *)
Inductive Emitted :=
| DataBody (b : Body)
| DataMsg (m : Msg)
| DataSigMsg (m : SigMsg)
| DataPresence (userId : string) (state : string) (room : JsVal).

Inductive Effect :=
(** [socket.emit(event, d)] on the socket with that id *)
| SocketEmit (socketId : string) (event : string) (d : Emitted)
(** [this.server.to(room).emit(event, d)] *)
| ServerRoomEmit (room : string) (event : string) (d : Emitted)
(** [client.to(room).emit(event, d)]: the room except [client] *)
| ClientRoomEmit (client : string) (room : string) (event : string) (d : Emitted)
(** [messageService.sendText(body, user)] *)
| CallSendText (b : Body) (u : JwtPayload)
(** [messageService.sendSignal(body, user)] *)
| CallSendSignal (b : SignalBody) (u : JwtPayload).

(** A JavaScript [Set<string>] is kept in insertion order. *)
Definition set_add (x : string) (s : list string) : list string :=
  if decide (x ∈ s) then s else s ++ [x].

Definition set_delete (x : string) (s : list string) : list string :=
  filter (λ y, y ≠ x) s.

Record Gateway := {
  (** [userSockets]: userId -> Set of socket ids *)
  userSockets : gmap string (list string);
  (** [recentSignals]: dedup key -> last seen *)
  recentSignals : gmap string Z;
  (** [server.sockets.sockets]: the live sockets, keyed by socket id *)
  server_sockets : gmap string Socket;
}.

Definition initial : Gateway :=
  {| userSockets := ∅; recentSignals := ∅; server_sockets := ∅ |}.

Definition with_userSockets (g : Gateway) (m : gmap string (list string)) : Gateway :=
  {| userSockets := m; recentSignals := recentSignals g;
     server_sockets := server_sockets g |}.

Definition with_recentSignals (g : Gateway) (m : gmap string Z) : Gateway :=
  {| userSockets := userSockets g; recentSignals := m;
     server_sockets := server_sockets g |}.

Definition with_sockets (g : Gateway) (m : gmap string Socket) : Gateway :=
  {| userSockets := userSockets g; recentSignals := recentSignals g;
     server_sockets := m |}.

Definition roomScopedSignals : gset string :=
  list_to_set ["call-accepted"; "call-rejected"; "call-ended"; "offer";
               "answer"; "ice-candidate"].

Definition multiTargetSignals : gset string := list_to_set ["call-request"].

Definition dedupSignals : gset string :=
  list_to_set ["call-request"; "call-accepted"; "call-rejected";
               "call-ended"; "offer"; "answer"].

Definition dedupWindowMs : Z := 1000.

Definition has (s : gset string) (x : string) : bool := bool_decide (x ∈ s).

(** [a || b] on optional strings: the first truthy one. *)
Definition str_truthy (o : option string) : bool :=
  match o with
  | Some s => negb (String.eqb s "")
  | None => false
  end.

Definition or_else (a b : option string) : option string :=
  if str_truthy a then a else b.

(** [payload.id || payload.sub || payload.userId], [None] when falsy. *)
Definition userIdOf (p : JwtPayload) : option string :=
  let u := or_else (or_else (jwt_id p) (jwt_sub p)) (jwt_userId p) in
  if str_truthy u then u else None.

(** ** Connection registry: [handleConnection] and [handleDisconnect] *)

Record Handshake := {
  (** [client.handshake.auth?.token] *)
  auth_token : option string;
  (** [client.handshake.query?.token] *)
  query_token : option string;
}.

Definition set_user (client : Socket) (u : option JwtPayload) : Socket :=
  {| sock_id := sock_id client; sock_user := u; sock_rooms := sock_rooms client |}.

Definition set_rooms (client : Socket) (r : gset string) : Socket :=
  {| sock_id := sock_id client; sock_user := sock_user client; sock_rooms := r |}.

(** [if (!has(userId)) set(userId, new Set()); get(userId).add(client.id)] *)
Definition register (userId socketId : string)
    (m : gmap string (list string)) : gmap string (list string) :=
  <[userId := set_add socketId (default [] (m !! userId))]> m.

(** [get(userId).delete(client.id); if (size === 0) delete(userId)],
    guarded by [has(userId)]. *)
Definition unregister (userId socketId : string)
    (m : gmap string (list string)) : gmap string (list string) :=
  match m !! userId with
  | Some ids =>
      let ids' := set_delete socketId ids in
      if decide (length ids' = 0%nat) then delete userId m
      else <[userId := ids']> m
  | None => m
  end.

Definition handleConnection (client : Socket) (hs : Handshake) (g : Gateway) : Gateway :=
  let token := or_else (auth_token hs) (query_token hs) in
  if str_truthy token then
    match jwt_verify (default "" token) with
    | Some payload =>
        let client' := set_user client (Some payload) in
        let g1 := with_sockets g (<[sock_id client := client']> (server_sockets g)) in
        match userIdOf payload with
        | Some userId =>
            with_userSockets g1 (register userId (sock_id client) (userSockets g1))
        | None => g1
        end
    | None => g
    end
  else g.

Definition handleDisconnect (client : Socket) (g : Gateway) : Gateway :=
  match sock_user client with
  | Some user =>
      match userIdOf user with
      | Some userId =>
          with_userSockets g (unregister userId (sock_id client) (userSockets g))
      | None => g
      end
  | None => g
  end.

Definition isUserOnline (userId : string) (g : Gateway) : bool :=
  match userSockets g !! userId with
  | Some ids => bool_decide (0 < length ids)%nat
  | None => false
  end.

Definition getConnectedUsersCount (g : Gateway) : nat := size (userSockets g).

(** ** Replies and outcomes of the message handlers *)

Inductive Reply :=
(** [{ error: message }] *)
| ReplyError (message : string)
(** [{ ok: true, roomId }] *)
| ReplyOkRoom (room : JsVal)
(** [{ ok: true, type }] and [{ ok: true, type, deduped: true }] *)
| ReplyOkType (type : string) (deduped : bool)
(** the persisted message itself *)
| ReplyMsg (m : Msg)
(** [{ ok: true, message }] *)
| ReplyOkMessage (m : SigMsg).

Record Outcome := {
  reply : Reply;
  gateway : Gateway;
  effects : list Effect;
}.

Definition roomOf (room : JsVal) : string := "room:" +:+ toStr room.

(** ** Rooms: [onJoinRoom] and [onLeaveRoom] *)

Definition onJoinRoom (client : Socket) (room : JsVal) (g : Gateway) : Outcome :=
  match sock_user client with
  | None => {| reply := ReplyError "Unauthorized"; gateway := g; effects := [] |}
  | Some _ =>
      let client' := set_rooms client ({[roomOf room]} ∪ sock_rooms client) in
      {| reply := ReplyOkRoom room;
         gateway := with_sockets g (<[sock_id client := client']> (server_sockets g));
         effects := [ServerRoomEmit (roomOf room) "presence"
                       (DataPresence (sock_id client) "joined" room)] |}
  end.

Definition onLeaveRoom (client : Socket) (room : JsVal) (g : Gateway) : Outcome :=
  let client' := set_rooms client (sock_rooms client ∖ {[roomOf room]}) in
  {| reply := ReplyOkRoom room;
     gateway := with_sockets g (<[sock_id client := client']> (server_sockets g));
     effects := [ServerRoomEmit (roomOf room) "presence"
                   (DataPresence (sock_id client) "left" room)] |}.

(** ** Deduplication: [hashPayload], [cleanupRecentSignals],
       [isDuplicateSignal] *)

(** [s.slice(0, 64)] *)
Definition slice64 (s : string) : string := substring 0 64 s.

(** A TypeError from [.slice] on a non-string is caught like a throw of
    [JSON.stringify]. *)
Definition hashPayload (payload : JsVal) : string :=
  match payload with
  | VStr s => slice64 s
  | VOther o =>
      match other_stringify o with
      | Some j => slice64 j
      | None => ""
      end
  | VNull => slice64 "null"
  | VUndefined => ""
  end.

Definition cleanupRecentSignals (now : Z) (m : gmap string Z) : gmap string Z :=
  filter (λ kt, ¬ (now - kt.2 > dedupWindowMs * 2)) m.

(** [body.data ? this.hashPayload(body.data) : ''] *)
Definition payloadHashOf (body : Body) : string :=
  if truthy (data body) then hashPayload (data body) else "".

Definition dedupKey (signalType : string) (body : Body) : string :=
  signalType +:+ "|" +:+ toStr (senderId body) +:+ "|" +:+
  toStr (targetId body) +:+ "|" +:+ toStr (roomId body) +:+ "|" +:+
  payloadHashOf body.

(** [lastSeen && now - lastSeen < this.dedupWindowMs] *)
Definition withinWindow (now : Z) (lastSeen : option Z) : bool :=
  match lastSeen with
  | Some t => negb (t =? 0) && (now - t <? dedupWindowMs)
  | None => false
  end.

Definition isDuplicateSignal (now : Z) (signalType : string) (body : Body)
    (recent : gmap string Z) : bool * gmap string Z :=
  if negb (has dedupSignals signalType) then (false, recent)
  else
    let key := dedupKey signalType body in
    if withinWindow now (recent !! key) then (true, recent)
    else (false, cleanupRecentSignals now (<[key := now]> recent)).

(** ** Targeted delivery: [sendToUser] *)

Record Options := {
  opt_roomId : JsVal;
  opt_multi : option bool;
}.

(** The [for] loop over [candidates]: [socketIds] is the live Set of the
    registry entry, [delivered] the flag, [out] the emits so far. *)
Fixpoint deliverLoop (socks : gmap string Socket) (roomName : option string)
    (multi : bool) (event : string) (d : Emitted)
    (candidates socketIds : list string) (delivered : bool) (out : list Effect)
    : list string * bool * list Effect :=
  match candidates with
  | [] => (socketIds, delivered, out)
  | socketId :: rest =>
      match socks !! socketId with
      | None =>
          deliverLoop socks roomName multi event d rest
            (set_delete socketId socketIds) delivered out
      | Some socket =>
          if match roomName with
             | Some r => bool_decide (r ∉ sock_rooms socket)
             | None => false
             end
          then deliverLoop socks roomName multi event d rest socketIds delivered out
          else
            let out' := out ++ [SocketEmit socketId event d] in
            if multi
            then deliverLoop socks roomName multi event d rest socketIds true out'
            else (socketIds, true, out')
      end
  end.

(** The registry is keyed by strings: any other [userId] finds no entry. *)
Definition registryGet (userId : JsVal) (m : gmap string (list string))
    : option (list string) :=
  match userId with
  | VStr u => m !! u
  | _ => None
  end.

(** [options?.roomId ? `room:${options.roomId}` : undefined] *)
Definition roomNameOf (options : option Options) : option string :=
  match options with
  | Some o => if truthy (opt_roomId o) then Some (roomOf (opt_roomId o)) else None
  | None => None
  end.

(** [options?.multi ?? true] *)
Definition multiOf (options : option Options) : bool :=
  match options with
  | Some o => default true (opt_multi o)
  | None => true
  end.

Definition sendToUser (userId : JsVal) (event : string) (d : Emitted)
    (options : option Options) (g : Gateway) : bool * Gateway * list Effect :=
  match userId, registryGet userId (userSockets g) with
  | VStr u, Some socketIds =>
      if bool_decide (0 < length socketIds)%nat then
        let roomName := roomNameOf options in
        let multi := multiOf options in
        let candidates := reverse socketIds in
        let '(ids', delivered, out) :=
          deliverLoop (server_sockets g) roomName multi event d
            candidates socketIds false [] in
        let m' :=
          if decide (length ids' = 0%nat) then delete u (userSockets g)
          else <[u := ids']> (userSockets g) in
        (delivered, with_userSockets g m', out)
      else (false, g, [])
  | _, _ => (false, g, [])
  end.

Definition broadcastMessage (room : JsVal) (message : Emitted) (g : Gateway)
    : Gateway * list Effect :=
  (g, [ServerRoomEmit (roomOf room) "newMessage" message]).

Definition sendMessageToUser (userId : JsVal) (event : string) (d : Emitted)
    (options : option Options) (g : Gateway) : bool * Gateway * list Effect :=
  sendToUser userId event d options g.

(** ** [onSendText] and [onSignal] *)

(** [(body.signalType ?? '').toLowerCase()]; [None] when the call raises a
    TypeError. *)
Definition normalizeSignalType (v : JsVal) : option string :=
  match v with
  | VUndefined | VNull => Some (toLowerCase "")
  | VStr s => Some (toLowerCase s)
  | VOther _ => None
  end.

Definition is_webrtc_signal (v : JsVal) : bool :=
  match v with
  | VStr s => String.eqb s "webrtc_signal"
  | _ => false
  end.

(** The options [onSendText] passes to [sendToUser]. *)
Definition signalOptions (normalizedSignalType : string) (body : Body) : Options :=
  {| opt_roomId :=
       if has roomScopedSignals normalizedSignalType then roomId body
       else VUndefined;
     opt_multi := Some (has multiTargetSignals normalizedSignalType) |}.

(** The fallback [client.to(`room:${body.roomId}`).emit('newMessage', body)] *)
Definition roomFallback (client : Socket) (body : Body) : Effect :=
  ClientRoomEmit (sock_id client) (roomOf (roomId body)) "newMessage"
    (DataBody body).

Definition onSendText (now : Z) (client : Socket) (body : Body) (g : Gateway)
    : Outcome :=
  match sock_user client with
  | None => {| reply := ReplyError "Unauthorized"; gateway := g; effects := [] |}
  | Some user =>
      if is_webrtc_signal (messageType body) then
        match normalizeSignalType (signalType body) with
        | None =>
            {| reply := ReplyError toLowerCase_type_error; gateway := g;
               effects := [] |}
        | Some normalizedSignalType =>
            let '(dup, recent') :=
              isDuplicateSignal now normalizedSignalType body (recentSignals g) in
            let g1 := with_recentSignals g recent' in
            let fallback := roomFallback client body in
            if dup then
              {| reply := ReplyOkType "webrtc_signal" true; gateway := g1;
                 effects := [] |}
            else if truthy (targetId body) then
              let '(sent, g2, out) :=
                sendToUser (targetId body) "newMessage" (DataBody body)
                  (Some (signalOptions normalizedSignalType body)) g1 in
              {| reply := ReplyOkType "webrtc_signal" false; gateway := g2;
                 effects := if sent then out else out ++ [fallback] |}
            else
              {| reply := ReplyOkType "webrtc_signal" false; gateway := g1;
                 effects := [fallback] |}
        end
      else
        match messageService_sendText body user with
        | inr msg =>
            {| reply := ReplyMsg msg; gateway := g;
               effects := [CallSendText body user;
                           ServerRoomEmit (roomOf (roomId body)) "newMessage"
                             (DataMsg msg)] |}
        | inl message =>
            {| reply := ReplyError message; gateway := g;
               effects := [CallSendText body user] |}
        end
  end.

Definition onSignal (client : Socket) (body : SignalBody) (g : Gateway) : Outcome :=
  match sock_user client with
  | None => {| reply := ReplyError "Unauthorized"; gateway := g; effects := [] |}
  | Some user =>
      match messageService_sendSignal body user with
      | inr message =>
          {| reply := ReplyOkMessage message; gateway := g;
             effects := [CallSendSignal body user;
                         ClientRoomEmit (sock_id client) (roomOf (sig_roomId body))
                           "signal" (DataSigMsg message)] |}
      | inl message =>
          {| reply := ReplyError message; gateway := g;
             effects := [CallSendSignal body user] |}
      end
  end.

(** ** The transport: who receives an emit, and the events that drive the
       gateway *)

(** The sockets that joined [room]. *)
Definition members (room : string) (socks : gmap string Socket) : gset string :=
  dom (filter (λ kv, room ∈ sock_rooms kv.2) socks).

(** socket.io's meaning of the three emit forms. *)
Definition recipients (socks : gmap string Socket) (e : Effect) : gset string :=
  match e with
  | SocketEmit socketId _ _ => {[socketId]}
  | ServerRoomEmit room _ _ => members room socks
  | ClientRoomEmit client room _ _ => members room socks ∖ {[client]}
  | CallSendText _ _ | CallSendSignal _ _ => ∅
  end.

(** A socket as the transport hands it to [handleConnection]: no user yet,
    and a member of the room named by its own id. *)
Definition new_socket (socketId : string) : Socket :=
  {| sock_id := socketId; sock_user := None; sock_rooms := {[socketId]} |}.

(** The transport adds the socket to its table, then calls the handler. *)
Definition connect (socketId : string) (hs : Handshake) (g : Gateway) : Gateway :=
  handleConnection (new_socket socketId) hs
    (with_sockets g (<[socketId := new_socket socketId]> (server_sockets g))).

(** The transport drops the socket from its table, then calls the handler. *)
Definition disconnect (client : Socket) (g : Gateway) : Gateway :=
  handleDisconnect client
    (with_sockets g (delete (sock_id client) (server_sockets g))).

(** One event of the gateway.  [clock] says which values [Date.now()] may
    take; the transport gives a connecting socket an id that is not in its
    table. *)
Inductive step (clock : Z → Prop) : Gateway → Gateway → Prop :=
| step_connect socketId hs g :
    server_sockets g !! socketId = None →
    step clock g (connect socketId hs g)
| step_disconnect socketId client g :
    server_sockets g !! socketId = Some client →
    step clock g (disconnect client g)
| step_joinRoom socketId client room g :
    server_sockets g !! socketId = Some client →
    step clock g (gateway (onJoinRoom client room g))
| step_leaveRoom socketId client room g :
    server_sockets g !! socketId = Some client →
    step clock g (gateway (onLeaveRoom client room g))
| step_sendText now socketId client body g :
    clock now →
    server_sockets g !! socketId = Some client →
    step clock g (gateway (onSendText now client body g))
| step_signal socketId client body g :
    server_sockets g !! socketId = Some client →
    step clock g (gateway (onSignal client body g))
| step_sendMessageToUser userId event d options g :
    step clock g (sendMessageToUser userId event d options g).1.2
| step_broadcastMessage room message g :
    step clock g (broadcastMessage room message g).1.

Definition any_time : Z → Prop := λ _, True.

Definition reachable (g : Gateway) : Prop := rtc (step any_time) initial g.

(** The clock up to [limit]. *)
Definition until (limit : Z) : Z → Prop := λ now, now ≤ limit.

(** The cache holds, for [key], a timestamp that is not before [since]. *)
Definition holds_since (key : string) (since : Z) (g : Gateway) : Prop :=
  ∃ t, recentSignals g !! key = Some t ∧ since ≤ t.

(** [this.userSockets.get(userId)], the empty set when there is none. *)
Definition connectionsFor (userId : string) (g : Gateway) : list string :=
  default [] (userSockets g !! userId).

(** ** The delivery loop *)

(** A candidate the loop emits to: a live socket, in the room when the
    delivery is room-scoped. *)
Definition eligible (socks : gmap string Socket) (roomName : option string)
    (socketId : string) : bool :=
  match socks !! socketId with
  | Some socket =>
      match roomName with
      | Some r => bool_decide (r ∈ sock_rooms socket)
      | None => true
      end
  | None => false
  end.

Definition emitTo (event : string) (d : Emitted) (socketId : string) : Effect :=
  SocketEmit socketId event d.

Definition chosen (multi : bool) (l : list string) : list string :=
  if multi then l else take 1 l.

(** The sockets a targeted delivery may reach, newest registration first. *)
Definition candidatesOf (g : Gateway) (options : option Options)
    (socketIds : list string) : list string :=
  List.filter (eligible (server_sockets g) (roomNameOf options)) (reverse socketIds).

Definition nonempty {A} (l : list A) : bool :=
  match l with
  | [] => false
  | _ :: _ => true
  end.

(** [client] is authenticated as [user] and [body] is a signalling message
    whose normalised type is [st]. *)
Definition SignalFrom (client : Socket) (user : JwtPayload) (body : Body)
    (st : string) : Prop :=
  sock_user client = Some user
  ∧ is_webrtc_signal (messageType body) = true
  ∧ normalizeSignalType (signalType body) = Some st.

(** The registry invariant: the transport keys its table by socket id, and
    every registry entry is a non-empty duplicate-free Set of live sockets
    that authenticated as that user. *)
Definition registry_inv (g : Gateway) : Prop :=
  (∀ c s, server_sockets g !! c = Some s → sock_id s = c)
  ∧ (∀ u ids, userSockets g !! u = Some ids →
       ids ≠ [] ∧ NoDup ids
       ∧ ∀ c, c ∈ ids →
           ∃ s, server_sockets g !! c = Some s
                ∧ sock_user s ≫= userIdOf = Some u).

(** The converse of the registry invariant: every live socket whose token
    names a user is registered under that user. *)
Definition registry_complete (g : Gateway) : Prop :=
  ∀ c s u, server_sockets g !! c = Some s →
           sock_user s ≫= userIdOf = Some u →
           c ∈ connectionsFor u g.

(** A socket that is in the transport's table. *)
Definition live (g : Gateway) (socketId : string) : Prop :=
  is_Some (server_sockets g !! socketId).

(** The string has no separator character [|]. *)
Fixpoint bar_free (s : string) : bool :=
  match s with
  | EmptyString => true
  | String c r => negb (Ascii.eqb c "|") && bar_free r
  end.


End Gateway.

(** ** The gateway as it was before targeted delivery

    The earlier [ChatGateway] keeps no registry and no dedup cache: its
    [onSendText] relays every signalling message to the room except the
    sender. *)

Module LegacyGateway.
Section Legacy.
Context {Other Msg SigMsg : Type} {Host : JsHost Other}.
Context {Svc : Services (@Body Other) (@SignalBody Other) Msg SigMsg}.

Definition onSendText (client : Socket) (body : @Body Other) (g : Gateway)
    : @Outcome Other Msg SigMsg :=
  match sock_user client with
  | None => {| reply := ReplyError "Unauthorized"; gateway := g; effects := [] |}
  | Some user =>
      if is_webrtc_signal (messageType body) then
        {| reply := ReplyOkType "webrtc_signal" false; gateway := g;
           effects := [ClientRoomEmit (sock_id client) (roomOf (roomId body))
                         "newMessage" (DataBody body)] |}
      else
        match messageService_sendText body user with
        | inr msg =>
            {| reply := ReplyMsg msg; gateway := g;
               effects := [CallSendText body user;
                           ServerRoomEmit (roomOf (roomId body)) "newMessage"
                             (DataMsg msg)] |}
        | inl message =>
            {| reply := ReplyError message; gateway := g;
               effects := [CallSendText body user] |}
        end
  end.

End Legacy.
End LegacyGateway.

(** * Danger zone events: [DangerZoneService.checkDangerZones]

    The event collection is a list, newest first, as [createdAt] orders
    it.  Whether a location is within a zone is decided by
    [calculateDistance(...) <= zone.radiusMeters] in floating point, and is
    a parameter here; [zones] is what the query for the active zones of the
    child's parents returned. *)

Module DangerZones.

Inductive DangerZoneEventType := ENTER | EXIT.

#[global] Instance DangerZoneEventType_eq_dec : EqDecision DangerZoneEventType.
Proof. solve_decision. Defined.

Section Service.
Context {Loc Geo : Type}.
Context (within : Loc → Geo → bool).

Record Child := {
  child_id : string;
  (** [child.location], absent before the first update *)
  location : option Loc;
}.

Record DangerZone := {
  zone_id : string;
  (** centre and radius *)
  geo : Geo;
  notifyOnEntry : bool;
  notifyOnExit : bool;
}.

Record DangerZoneEvent := {
  event_id : nat;
  child : string;
  dangerZone : string;
  type : DangerZoneEventType;
  at_location : Loc;
  notificationSent : bool;
}.

Record Store := {
  (** newest first *)
  events : list DangerZoneEvent;
  (** the [_id] the next created event gets *)
  next_id : nat;
}.

Definition about (c z : string) (e : DangerZoneEvent) : Prop :=
  child e = c ∧ dangerZone e = z.

(** [findOne({ child, dangerZone }).sort({ createdAt: -1 })] *)
Definition lastEvent (c z : string) (st : Store) : option DangerZoneEvent :=
  head (filter (about c z) (events st)).

(** [lastEvent?.type === DangerZoneEventType.ENTER] *)
Definition wasInside (last : option DangerZoneEvent) : bool :=
  match last with
  | Some e => bool_decide (type e = ENTER)
  | None => false
  end.

(** [dangerZoneEventModel.create({ ..., notificationSent: false })] *)
Definition create (c z : string) (t : DangerZoneEventType) (loc : Loc)
    (st : Store) : DangerZoneEvent * Store :=
  let e := {| event_id := next_id st; child := c; dangerZone := z; type := t;
              at_location := loc; notificationSent := false |} in
  (e, {| events := e :: events st; next_id := S (next_id st) |}).

(** The body of the loop over the zones; [acc] is [events] and the
    collection. *)
Definition checkZone (c : Child) (loc : Loc)
    (acc : list DangerZoneEvent * Store) (zone : DangerZone)
    : list DangerZoneEvent * Store :=
  let isInsideZone := within loc (geo zone) in
  let wasInsideZone := wasInside (lastEvent (child_id c) (zone_id zone) acc.2) in
  if isInsideZone && negb wasInsideZone then
    if notifyOnEntry zone then
      let r := create (child_id c) (zone_id zone) ENTER loc acc.2 in
      (acc.1 ++ [r.1], r.2)
    else acc
  else if negb isInsideZone && wasInsideZone then
    if notifyOnExit zone then
      let r := create (child_id c) (zone_id zone) EXIT loc acc.2 in
      (acc.1 ++ [r.1], r.2)
    else acc
  else acc.

Definition checkDangerZones (c : Child) (zones : list DangerZone) (st : Store)
    : list DangerZoneEvent * Store :=
  match location c with
  | None => ([], st)
  | Some loc => foldl (checkZone c loc) ([], st) zones
  end.

(** [findByIdAndUpdate(eventId, { notificationSent: true })] *)
Definition markNotificationSent (eventId : nat) (st : Store) : Store :=
  {| events :=
       (λ e, if decide (event_id e = eventId)
             then {| event_id := event_id e; child := child e;
                     dangerZone := dangerZone e; type := type e;
                     at_location := at_location e; notificationSent := true |}
             else e) <$> events st;
     next_id := next_id st |}.

(** The types of the events about a child and a zone, newest first. *)
Definition history (c z : string) (st : Store) : list DangerZoneEventType :=
  type <$> filter (about c z) (events st).

(** A history that starts with an entry and alternates (read from the
    oldest event, the last of the list). *)
Fixpoint alternating (h : list DangerZoneEventType) : Prop :=
  match h with
  | [] => True
  | t :: older =>
      match older with
      | [] => t = ENTER
      | t' :: _ => t ≠ t'
      end ∧ alternating older
  end.

(** The check would record an event for the zone. *)
Definition pending (c : Child) (loc : Loc) (st : Store) (zone : DangerZone)
    : bool :=
  let isInsideZone := within loc (geo zone) in
  let wasInsideZone := wasInside (lastEvent (child_id c) (zone_id zone) st) in
  (isInsideZone && negb wasInsideZone && notifyOnEntry zone)
  || (negb isInsideZone && wasInsideZone && notifyOnExit zone).

End Service.
End DangerZones.

(** * Alerts: [NotificationService]

    The user collection and the e-mail and SMS services are collaborators;
    the texts of an alert are built from the data with the current date and
    are parameters. *)

Module Notification.

(** The contact fields of the user document. *)
Record Parent := {
  email : option string;
  phoneNumber : option string;
}.

Inductive LogLine :=
| WarnParentNotFound
| LogEmailSent
| ErrorEmailFailed
| LogSmsSent
| ErrorSmsFailed
| WarnNoContact.

Inductive Effect :=
(** [emailService.send(to, subject, html)] *)
| EmailSend (to subject html : string)
(** [smsService.send(to, message)] *)
| SmsSend (to message : string)
| Logged (line : LogLine).

Class Collaborators (Data : Type) := {
  (** [userModel.findById(parentId).exec()]; [inl m] when it throws *)
  findById : string → string + option Parent;
  (** [Some m] when the service throws an error with message [m] *)
  emailService_send : string → string → string → option string;
  smsService_send : string → string → option string;
  (** the subject line, [buildDangerZoneMessage] and
      [buildDangerZoneEmailHtml] *)
  subjectOf : Data → string;
  buildDangerZoneMessage : Data → string;
  buildDangerZoneEmailHtml : Data → string;
}.

Section Service.
Context {Data : Type} {Collab : Collaborators Data}.

(** A string field that is present and not empty. *)
Definition present (field : option string) : bool :=
  match field with
  | Some s => negb (String.eqb s "")
  | None => false
  end.

(** The result is [Some m] when the promise is rejected with message [m]. *)
Definition sendDangerZoneAlert (parentId : string) (data : Data)
    : option string * list Effect :=
  match findById parentId with
  | inl m => (Some m, [])
  | inr None => (None, [Logged WarnParentNotFound])
  | inr (Some parent) =>
      let subject := subjectOf data in
      let message := buildDangerZoneMessage data in
      let byEmail :=
        if present (email parent) then
          let to := default "" (email parent) in
          let htmlMessage := buildDangerZoneEmailHtml data in
          EmailSend to subject htmlMessage ::
          match emailService_send to subject htmlMessage with
          | None => [Logged LogEmailSent]
          | Some _ => [Logged ErrorEmailFailed]
          end
        else [] in
      let bySms :=
        if present (phoneNumber parent) then
          let to := default "" (phoneNumber parent) in
          SmsSend to message ::
          match smsService_send to message with
          | None => [Logged LogSmsSent]
          | Some _ => [Logged ErrorSmsFailed]
          end
        else [] in
      let neither :=
        if negb (present (email parent)) && negb (present (phoneNumber parent))
        then [Logged WarnNoContact] else [] in
      (None, byEmail ++ bySms ++ neither)
  end.

Definition sendEmail (to subject html : string) : option string * list Effect :=
  match emailService_send to subject html with
  | None => (None, [EmailSend to subject html; Logged LogEmailSent])
  | Some m => (Some m, [EmailSend to subject html; Logged ErrorEmailFailed])
  end.

Definition sendSms (to message : string) : option string * list Effect :=
  match smsService_send to message with
  | None => (None, [SmsSend to message; Logged LogSmsSent])
  | Some m => (Some m, [SmsSend to message; Logged ErrorSmsFailed])
  end.

(** The calls to the two services among the effects. *)
Definition is_send (e : Effect) : bool :=
  match e with
  | EmailSend _ _ _ | SmsSend _ _ => true
  | Logged _ => false
  end.

Definition sends (l : list Effect) : list Effect := List.filter is_send l.

End Service.
End Notification.

(** * Linked parents: [ChildService.linkParentByQr], [unlinkParent],
      [unlinkSpecificParent]

    Each works on the child document it found.  An id in a document is the
    string that [toString()] gives for its [ObjectId]; the id of the current
    user is the string of the token. *)

Module ChildLinks.

(** The roles the service names, and any other value of the field. *)
Inductive UserRole := ADMIN | PARENT | OtherRole (name : string).

#[global] Instance UserRole_eq_dec : EqDecision UserRole.
Proof. solve_decision. Defined.

Record CurrentUser := {
  id : string;
  role : UserRole;
}.

Record Child := {
  child_id : string;
  parent : string;
  linkedParents : list string;
}.

Inductive Failure :=
| NotFoundException (message : string)
| ForbiddenException (message : string)
(** [new Types.ObjectId(s)] refuses [s] *)
| BSONError.

Inductive RoomCall :=
(** [roomModel.create({ parent, child, isActive: true })] *)
| RoomCreate (parentId childId : string)
(** [roomModel.updateOne({ parent, child }, { isActive: false })] *)
| RoomDeactivate (parentId childId : string).

Definition with_linkedParents (child : Child) (l : list string) : Child :=
  {| child_id := child_id child; parent := parent child; linkedParents := l |}.

(** [p => p.toString() === s] over the linked parents *)
Definition some_is (s : string) (l : list string) : bool :=
  existsb (λ p, String.eqb p s) l.

(** [filter(p => p.toString() !== s)] *)
Definition without (s : string) (l : list string) : list string :=
  List.filter (λ p, negb (String.eqb p s)) l.

Section Service.
(** [new Types.ObjectId(s).toString()]; [None] when the constructor
    throws. *)
Context (objectId : string → option string).

(** [found] is the result of [childModel.findOne({ qrCode })], [user] the
    role of the user that [userModel.findById(currentUser.id)] found.  The
    result carries the document as saved and the calls to the room
    collection, whose failures are caught. *)
Definition linkParentByQr (found : option Child) (currentUser : CurrentUser)
    (user : option UserRole) : Failure + Child * list RoomCall :=
  match found with
  | None => inl (NotFoundException "Child with this QR code not found")
  | Some child =>
      if String.eqb (parent child) (id currentUser) then
        inl (ForbiddenException "You are already the main parent of this child")
      else if some_is (id currentUser) (linkedParents child) then
        inl (ForbiddenException "You are already linked to this child")
      else
        match user with
        | Some PARENT =>
            match objectId (id currentUser) with
            | None => inl BSONError
            | Some oid =>
                inr (with_linkedParents child (linkedParents child ++ [oid]),
                     [RoomCreate oid (child_id child)])
            end
        | _ => inl (ForbiddenException "Only parents can link to children")
        end
  end.

(** The call to [updateOne] is inside the [try], with the construction of
    the id. *)
Definition deactivate (parentId : string) (child : Child) : list RoomCall :=
  match objectId parentId with
  | Some oid => [RoomDeactivate oid (child_id child)]
  | None => []
  end.

(** [found] is the result of [childModel.findById(childId)]. *)
Definition unlinkParent (found : option Child) (currentUser : CurrentUser)
    : Failure + Child * list RoomCall :=
  match found with
  | None => inl (NotFoundException "Child not found")
  | Some child =>
      if String.eqb (parent child) (id currentUser) then
        inl (ForbiddenException
               "Cannot unlink main parent. Only linked parents can be removed.")
      else if negb (some_is (id currentUser) (linkedParents child)) then
        inl (ForbiddenException "You are not linked to this child")
      else
        inr (with_linkedParents child (without (id currentUser) (linkedParents child)),
             deactivate (id currentUser) child)
  end.

Definition unlinkSpecificParent (found : option Child) (parentId : string)
    (currentUser : CurrentUser) : Failure + Child * list RoomCall :=
  match found with
  | None => inl (NotFoundException "Child not found")
  | Some child =>
      if negb (bool_decide (role currentUser = ADMIN))
         && negb (String.eqb (parent child) (id currentUser)) then
        inl (ForbiddenException
               "Only the main parent or admin can unlink other parents")
      else if String.eqb (parent child) parentId then
        inl (ForbiddenException "Cannot unlink main parent")
      else if negb (some_is parentId (linkedParents child)) then
        inl (NotFoundException "This parent is not linked to the child")
      else
        inr (with_linkedParents child (without parentId (linkedParents child)),
             deactivate parentId child)
  end.

End Service.

(** The main parent is not among the linked parents, and nobody is linked
    twice. *)
Definition well_linked (child : Child) : Prop :=
  (parent child ∉ linkedParents child) ∧ NoDup (linkedParents child).

End ChildLinks.

(** * A concrete host and scenario

    Booleans stand for the non-string values, and [toLowerCase] is the
    ASCII one.  User [U] is connected twice ([c1] first, then [c2]), user
    [S] once ([s1]); [a1] connected without a token.  All but [a1] joined
    room [R]. *)

Definition ascii_toLowerCase (c : ascii) : ascii :=
  let n := nat_of_ascii c in
  if (Nat.leb 65 n && Nat.leb n 90)%bool then ascii_of_nat (n + 32) else c.

Fixpoint string_toLowerCase (s : string) : string :=
  match s with
  | EmptyString => EmptyString
  | String c r => String (ascii_toLowerCase c) (string_toLowerCase r)
  end.

Definition bool_toString (b : bool) : string := if b then "true" else "false".

Definition demo_host : JsHost bool :=
  {| other_truthy := id;
     other_toString := bool_toString;
     other_stringify := λ b, Some (bool_toString b);
     toLowerCase := string_toLowerCase;
     toLowerCase_type_error := "toLowerCase is not a function" |}.

(** Tokens verify to the user they name, except [bad]; a chat message is
    persisted as its content and refused when it has none. *)
Definition demo_services
    : Services (@Body bool) (@SignalBody bool) string string :=
  {| jwt_verify := λ token,
       if String.eqb token "bad" then None
       else Some {| jwt_id := Some token; jwt_sub := None; jwt_userId := None |};
     messageService_sendText := λ body _,
       if truthy (Host := demo_host) (content body)
       then inr (toStr (Host := demo_host) (content body))
       else inl "content required";
     messageService_sendSignal := λ body _,
       inr (toStr (Host := demo_host) (sig_type body)) |}.

Module Scenario.
#[local] Existing Instance demo_host.
#[local] Existing Instance demo_services.

Abbreviation Val := (@JsVal bool).
Abbreviation Message := (@Body bool).

Definition bearer (token : string) : Handshake :=
  {| auth_token := Some token; query_token := None |}.

Definition no_token : Handshake := {| auth_token := None; query_token := None |}.

(** The socket object of a connected client. *)
Definition clientOf (socketId : string) (g : Gateway) : Socket :=
  default (new_socket socketId) (server_sockets g !! socketId).

Definition join (socketId room : string) (g : Gateway) : Gateway :=
  gateway (onJoinRoom (Msg := string) (SigMsg := string)
             (clientOf socketId g) (VStr room) g).

Definition connected : Gateway :=
  connect "a1" no_token
    (connect "c2" (bearer "U")
       (connect "c1" (bearer "U") (connect "s1" (bearer "S") initial))).

Definition scenario : Gateway :=
  join "c2" "R" (join "c1" "R" (join "s1" "R" connected)).

Definition sender : Socket := clientOf "s1" scenario.
Definition anonymous : Socket := clientOf "a1" scenario.

Definition userS : JwtPayload :=
  {| jwt_id := Some "S"; jwt_sub := None; jwt_userId := None |}.

Definition signalBody (type target : string) (payload : Val) : Message :=
  {| messageType := VStr "webrtc_signal"; signalType := VStr type;
     senderId := VStr "S"; targetId := VStr target; roomId := VStr "R";
     data := payload; content := VUndefined |}.

Definition offer : Message := signalBody "offer" "U" (VStr "sdp").
Definition answer : Message := signalBody "answer" "U" (VStr "sdp").
Definition callRequest : Message := signalBody "call-request" "U" VUndefined.
Definition iceCandidate : Message := signalBody "ice-candidate" "U" (VStr "candidate").
Definition offerToAbsent : Message := signalBody "offer" "V" (VStr "sdp").

Definition longSdp (tail : string) : string :=
  "v=0 o=- 4611731400430051336 2 IN IP4 127.0.0.1 s=- t=0 0 a=group:BUNDLE " +:+ tail.

(** The same offer, for a call in room [Q], which nobody joined. *)
Definition offerInQ : Message :=
  {| messageType := VStr "webrtc_signal"; signalType := VStr "offer";
     senderId := VStr "S"; targetId := VStr "U"; roomId := VStr "Q";
     data := VStr "sdp"; content := VUndefined |}.

(** An offer whose payload is longer than 64 characters. *)
Definition longOffer (tail : string) : Message :=
  signalBody "offer" "U" (VStr (longSdp tail)).

(** An ice candidate that names no room. *)
Definition iceWithoutRoom : Message :=
  {| messageType := VStr "webrtc_signal"; signalType := VStr "ice-candidate";
     senderId := VStr "S"; targetId := VStr "U"; roomId := VUndefined;
     data := VStr "candidate"; content := VUndefined |}.

(** An offer whose payload is the boolean [false]. *)
Definition offerWithFalse : Message := signalBody "offer" "U" (VOther false).

Definition chat (text : Val) : Message :=
  {| messageType := VStr "text"; signalType := VUndefined;
     senderId := VStr "S"; targetId := VUndefined; roomId := VStr "R";
     data := VUndefined; content := text |}.

(** The scenario after socket [c1] went away without [handleDisconnect]. *)
Definition scenario_stale : Gateway :=
  with_sockets scenario (delete "c1" (server_sockets scenario)).


End Scenario.

(** ** A danger zone scenario

    Locations are points of a grid and a zone is a disc; the distance is
    compared by its square.  The school reports entries and exits, the river
    exits only. *)

Module ZoneScenario.
Import DangerZones.

Definition Point : Type := Z * Z.
Definition Disc : Type := Point * Z.

Definition within (p : Point) (d : Disc) : bool :=
  (p.1 - d.1.1) ^ 2 + (p.2 - d.1.2) ^ 2 <=? d.2 ^ 2.

Definition school : @DangerZone Disc :=
  {| zone_id := "school"; geo := ((0, 0), 10);
     notifyOnEntry := true; notifyOnExit := true |}.

Definition river : @DangerZone Disc :=
  {| zone_id := "river"; geo := ((100, 0), 5);
     notifyOnEntry := false; notifyOnExit := true |}.

Definition zones : list (@DangerZone Disc) := [school; river].

Definition kidAt (p : Point) : @Child Point :=
  {| child_id := "kid"; location := Some p |}.

Definition no_events : @Store Point := {| events := []; next_id := 0%nat |}.

(** The collection after the child was seen at the school. *)
Definition at_school : @Store Point :=
  (checkDangerZones within (kidAt (3, 4)) zones no_events).2.

End ZoneScenario.

(** ** An alert scenario

    Parent [p1] has an e-mail address and a phone number, [p2] has neither;
    the e-mail service is down. *)

Module AlertScenario.
Import Notification.

Definition p1 : Parent :=
  {| email := Some "parent@weldiwin.tn"; phoneNumber := Some "+21620000000" |}.

Definition p2 : Parent := {| email := None; phoneNumber := Some "" |}.

Definition demo_collaborators : Collaborators string :=
  {| findById := λ parentId,
       if String.eqb parentId "p1" then inr (Some p1)
       else if String.eqb parentId "p2" then inr (Some p2)
       else if String.eqb parentId "" then inl "Cast to ObjectId failed"
       else inr None;
     emailService_send := λ _ _ _, Some "connection refused";
     smsService_send := λ _ _, None;
     subjectOf := λ data, "Alert: " +:+ data;
     buildDangerZoneMessage := λ data, "WELDIWIN ALERT: " +:+ data;
     buildDangerZoneEmailHtml := λ data, "<p>" +:+ data +:+ "</p>" |}.

End AlertScenario.

(** ** A scenario of linked parents

    The ids are strings of 24 characters in lower case, which
    [new Types.ObjectId(s).toString()] gives back. *)

Module LinkScenario.
Import ChildLinks.

Definition demo_objectId (s : string) : option string :=
  if Nat.eqb (String.length s) 24 then Some s else None.

Definition mother : string := "64b0000000000000000000a1".
Definition father : string := "64b0000000000000000000a2".
Definition aunt : string := "64b0000000000000000000a3".

Definition kid : Child :=
  {| child_id := "64b0000000000000000000c1"; parent := mother;
     linkedParents := [father] |}.

(** A document in which the father is linked twice. *)
Definition kid_twice : Child :=
  {| child_id := "64b0000000000000000000c1"; parent := mother;
     linkedParents := [father; aunt; father] |}.

Definition asParent (userId : string) : CurrentUser :=
  {| id := userId; role := PARENT |}.

End LinkScenario.

(** Closed goals about the scenario are settled by running the model. *)
Ltac run := vm_compute; first [reflexivity | discriminate | by repeat split].

(** * Properties *)

Section Properties.
Context {Other Msg SigMsg : Type} {Host : JsHost Other}.
Context {Svc : Services (@Body Other) (@SignalBody Other) Msg SigMsg}.

Implicit Types (body b : @Body Other) (sbody : @SignalBody Other).
Implicit Types (userId room : @JsVal Other) (options : option (@Options Other)).
Implicit Types (d : @Emitted Other Msg SigMsg).

Lemma deliverLoop_out socks roomName multi event d candidates :
  ∀ socketIds delivered out,
    (deliverLoop socks roomName multi event d candidates socketIds delivered out).2
    = out ++ (emitTo event d
                <$> chosen multi (List.filter (eligible socks roomName) candidates)).
Proof.
  induction candidates as [|c rest IH]; intros ids del out; simpl.
  - destruct multi; simpl; by rewrite app_nil_r.
  - unfold eligible at 1.
    destruct (socks !! c) as [sk|] eqn:Hc; [|apply IH].
    destruct roomName as [r|].
    + destruct (decide (r ∈ sock_rooms sk)) as [Hin|Hin].
      * rewrite (bool_decide_eq_false_2 (r ∉ sock_rooms sk)) by tauto.
        rewrite (bool_decide_eq_true_2 _ Hin).
        destruct multi; simpl.
        -- rewrite IH. by rewrite <- app_assoc.
        -- done.
      * rewrite (bool_decide_eq_true_2 (r ∉ sock_rooms sk)) by done.
        rewrite (bool_decide_eq_false_2 _ Hin). apply IH.
    + destruct multi; simpl.
      * rewrite IH. by rewrite <- app_assoc.
      * done.
Qed.

Lemma deliverLoop_delivered socks roomName multi event d candidates :
  ∀ socketIds delivered out,
    (deliverLoop socks roomName multi event d candidates socketIds delivered out).1.2
    = delivered
      || nonempty (List.filter (eligible socks roomName) candidates).
Proof.
  induction candidates as [|c rest IH]; intros ids del out; simpl.
  - by rewrite orb_false_r.
  - unfold eligible at 1.
    destruct (socks !! c) as [sk|] eqn:Hc; [|apply IH].
    destruct roomName as [r|].
    + destruct (decide (r ∈ sock_rooms sk)) as [Hin|Hin].
      * rewrite (bool_decide_eq_false_2 (r ∉ sock_rooms sk)) by tauto.
        rewrite (bool_decide_eq_true_2 _ Hin).
        destruct multi; simpl; [rewrite IH|]; by rewrite orb_true_r.
      * rewrite (bool_decide_eq_true_2 (r ∉ sock_rooms sk)) by done.
        rewrite (bool_decide_eq_false_2 _ Hin). apply IH.
    + destruct multi; simpl; [rewrite IH|]; by rewrite orb_true_r.
Qed.

(** The loop only ever removes ids from the Set. *)
Lemma deliverLoop_ids socks roomName multi event d candidates :
  ∀ socketIds delivered out,
    sublist
      (deliverLoop socks roomName multi event d candidates socketIds delivered out).1.1
      socketIds.
Proof.
  induction candidates as [|c rest IH]; intros ids del out; simpl; [done|].
  destruct (socks !! c) as [sk|] eqn:Hc.
  - destruct (match roomName with Some r => _ | None => _ end); [apply IH|].
    destruct multi; [apply IH | done].
  - etrans; [apply IH|]. apply sublist_filter.
Qed.


Lemma sendToUser_absent userId event d options g :
  registryGet userId (userSockets g) = None →
  sendToUser userId event d options g = (false, g, []).
Proof.
  intros H. unfold sendToUser.
  destruct userId; simpl in *; try done. by rewrite H.
Qed.

Lemma sendToUser_present u ids event d options g :
  userSockets g !! u = Some ids →
  let cands := candidatesOf g options ids in
  let r := sendToUser (VStr u) event d options g in
  r.1.1 = nonempty cands
  ∧ r.2 = emitTo event d <$> chosen (multiOf options) cands
  ∧ server_sockets r.1.2 = server_sockets g
  ∧ recentSignals r.1.2 = recentSignals g.
Proof.
  intros Hu cands r. subst r. unfold sendToUser. simpl. rewrite Hu.
  destruct ids as [|i ids'] eqn:Hids.
  { simpl. subst cands. by destruct (multiOf options). }
  rewrite bool_decide_eq_true_2 by (simpl; lia). rewrite <- Hids.
  pose proof (deliverLoop_out (server_sockets g) (roomNameOf options)
    (multiOf options) event d (reverse ids) ids false []) as Hout.
  pose proof (deliverLoop_delivered (server_sockets g) (roomNameOf options)
    (multiOf options) event d (reverse ids) ids false []) as Hdel.
  destruct (deliverLoop _ _ _ _ _ _ _ _ _) as [[ids2 del] out]. simpl in *.
  by subst.
Qed.


(** ** Shape of [onSendText] on a signalling message *)

Lemma with_recentSignals_id g : with_recentSignals g (recentSignals g) = g.
Proof. by destruct g. Qed.

Lemma onSendText_signal_reply now client user body g st :
  sock_user client = Some user →
  is_webrtc_signal (messageType body) = true →
  normalizeSignalType (signalType body) = Some st →
  reply (onSendText now client body g)
  = ReplyOkType "webrtc_signal" (isDuplicateSignal now st body (recentSignals g)).1.
Proof.
  intros Hu Hm Hn. unfold onSendText. rewrite Hu, Hm, Hn.
  destruct (isDuplicateSignal _ _ _ _) as [[] recent']; simpl; [done|].
  destruct (truthy (targetId body)); [|done].
  by destruct (sendToUser _ _ _ _ _) as [[sent g2] out].
Qed.

Lemma isDuplicateSignal_true now st body recent :
  (isDuplicateSignal now st body recent).1 = true →
  isDuplicateSignal now st body recent = (true, recent).
Proof.
  unfold isDuplicateSignal.
  destruct (negb (has dedupSignals st)); [done|].
  by destruct (withinWindow now (recent !! dedupKey st body)).
Qed.

Lemma onSendText_signal_deduped now client user body g st :
  sock_user client = Some user →
  is_webrtc_signal (messageType body) = true →
  normalizeSignalType (signalType body) = Some st →
  (isDuplicateSignal now st body (recentSignals g)).1 = true →
  onSendText now client body g
  = {| reply := ReplyOkType "webrtc_signal" true; gateway := g; effects := [] |}.
Proof.
  intros Hu Hm Hn Hd. unfold onSendText. rewrite Hu, Hm, Hn.
  rewrite (isDuplicateSignal_true _ _ _ _ Hd). simpl.
  by rewrite with_recentSignals_id.
Qed.

Lemma onSendText_signal_effects now client user body g st :
  sock_user client = Some user →
  is_webrtc_signal (messageType body) = true →
  normalizeSignalType (signalType body) = Some st →
  (isDuplicateSignal now st body (recentSignals g)).1 = false →
  let ids := default [] (registryGet (targetId body) (userSockets g)) in
  let cands := candidatesOf g (Some (signalOptions st body)) ids in
  effects (onSendText now client body g)
  = if truthy (targetId body) && nonempty cands
    then emitTo "newMessage" (DataBody body)
           <$> chosen (has multiTargetSignals st) cands
    else [roomFallback client body].
Proof.
  intros Hu Hm Hn Hd ids cands. unfold onSendText. rewrite Hu, Hm, Hn.
  destruct (isDuplicateSignal _ _ _ _) as [dup recent']. simpl in Hd. subst dup.
  destruct (truthy (targetId body)) eqn:Ht; [|done]. simpl.
  destruct (registryGet (targetId body) (userSockets g)) as [l|] eqn:Hg.
  - destruct (targetId body) as [| |u|o] eqn:Htid; try done. simpl in Hg.
    pose proof (sendToUser_present u l "newMessage" (DataBody body)
      (Some (signalOptions st body)) (with_recentSignals g recent') Hg)
      as (Hs & Ho & _).
    destruct (sendToUser _ _ _ _ _) as [[sent g2] out]. simpl in *.
    subst sent out ids cands. fold (candidatesOf g (Some (signalOptions st body)) l).
    change (candidatesOf (with_recentSignals g recent') ?o ?l)
      with (candidatesOf g o l).
    destruct (candidatesOf g _ l); simpl; [|done].
    by destruct (has multiTargetSignals st).
  - rewrite sendToUser_absent by done. by subst ids cands.
Qed.


(** ** The registry invariant *)

Lemma set_add_elem x y s : y ∈ set_add x s ↔ y = x ∨ y ∈ s.
Proof.
  unfold set_add. destruct (decide (x ∈ s)).
  - split; [auto | intros [->|]; done].
  - rewrite elem_of_app, list_elem_of_singleton. tauto.
Qed.

Lemma set_add_NoDup x s : NoDup s → NoDup (set_add x s).
Proof.
  intros Hs. unfold set_add. destruct (decide (x ∈ s)); [done|].
  apply NoDup_app. split_and!; [done| |apply NoDup_singleton].
  intros y Hy ->%list_elem_of_singleton. done.
Qed.

Lemma set_add_nonempty x s : set_add x s ≠ [].
Proof.
  unfold set_add. destruct (decide (x ∈ s)) as [Hin|].
  - intros ->. by apply not_elem_of_nil in Hin.
  - by destruct s.
Qed.

Lemma set_delete_elem x y s : y ∈ set_delete x s ↔ y ≠ x ∧ y ∈ s.
Proof. unfold set_delete. by rewrite list_elem_of_filter. Qed.

Lemma set_delete_last x : set_delete x [x] = [].
Proof.
  unfold set_delete. rewrite filter_cons, decide_False; [done|].
  intros Hne. by apply Hne.
Qed.

Lemma registry_inv_initial : registry_inv initial.
Proof. split; intros ??; simpl; by rewrite lookup_empty. Qed.

(** Replacing the table entry of a socket that no registry entry names, or
    that keeps its user, preserves the invariant. *)
Lemma registry_inv_put g socketId client' :
  registry_inv g →
  sock_id client' = socketId →
  (∀ client, server_sockets g !! socketId = Some client →
     sock_user client' = sock_user client) →
  registry_inv (with_sockets g (<[socketId := client']> (server_sockets g))).
Proof.
  intros [Hk He] Hid Hu. split; simpl.
  - intros c s. rewrite lookup_insert.
    case_decide; [intros [= <-]; congruence | apply Hk].
  - intros u ids Hids. destruct (He u ids Hids) as (Hne & Hnd & Hl).
    split_and!; [done..|]. intros c Hc. destruct (Hl c Hc) as (s & Hs & Hsu).
    rewrite lookup_insert. case_decide as Heq; [|eauto].
    subst c. exists client'. split; [done|]. by rewrite (Hu s Hs).
Qed.

Lemma registry_inv_connect g socketId hs :
  registry_inv g →
  server_sockets g !! socketId = None →
  registry_inv (connect socketId hs g).
Proof.
  intros Hinv Hfresh.
  assert (registry_inv (with_sockets g
            (<[socketId := new_socket socketId]> (server_sockets g)))) as H0.
  { apply registry_inv_put; [done..|]. intros ?. by rewrite Hfresh. }
  unfold connect, handleConnection.
  destruct (str_truthy _); [|done].
  destruct (jwt_verify _) as [payload|]; [|done].
  set (client' := set_user (new_socket socketId) (Some payload)).
  assert (registry_inv (with_sockets g (<[socketId := client']>
            (<[socketId := new_socket socketId]> (server_sockets g))))) as H1.
  { rewrite insert_insert_eq. apply registry_inv_put; [done..|].
    intros ?. by rewrite Hfresh. }
  simpl. destruct (userIdOf payload) as [userId|] eqn:Hp; [|done].
  destruct H1 as [Hk He]. split; [done|]. simpl in *.
  intros u ids. unfold register. rewrite lookup_insert.
  case_decide as Hu.
  - intros [= <-]. subst u. split_and!.
    + apply set_add_nonempty.
    + apply set_add_NoDup.
      destruct (userSockets g !! userId) as [l|] eqn:Hl; simpl;
        [by apply (He _ _ Hl) | constructor].
    + intros c [->|Hc]%set_add_elem.
      * exists client'. rewrite lookup_insert_eq. split; [done|]. simpl. done.
      * destruct (userSockets g !! userId) as [l|] eqn:Hl; simpl in Hc;
          [|by apply not_elem_of_nil in Hc].
        by apply (He _ _ Hl).
  - apply He.
Qed.

Lemma registry_inv_disconnect g socketId client :
  registry_inv g →
  server_sockets g !! socketId = Some client →
  registry_inv (disconnect client g).
Proof.
  intros [Hk He] Hc. pose proof (Hk _ _ Hc) as Hid.
  assert (∀ u ids c, userSockets g !! u = Some ids → c ∈ ids → c ≠ socketId →
            ∃ s, delete socketId (server_sockets g) !! c = Some s
                 ∧ sock_user s ≫= userIdOf = Some u) as Hlive.
  { intros u ids c Hu Hin Hne. destruct (He u ids Hu) as (_ & _ & Hl).
    destruct (Hl c Hin) as (s & Hs & Hsu). exists s. by rewrite lookup_delete_ne. }
  assert (∀ u ids, userSockets g !! u = Some ids → socketId ∈ ids →
            sock_user client ≫= userIdOf = Some u) as Hmine.
  { intros u ids Hu Hin. destruct (He u ids Hu) as (_ & _ & Hl).
    destruct (Hl _ Hin) as (s & Hs & Hsu). congruence. }
  assert (∀ c s, delete socketId (server_sockets g) !! c = Some s → sock_id s = c)
    as Hk'.
  { intros c s. rewrite lookup_delete. case_decide; [done | apply Hk]. }
  unfold disconnect, handleDisconnect. rewrite Hid.
  destruct (sock_user client) as [user|] eqn:Huser; simpl in *.
  2:{ split; [done|]. simpl. intros u ids Hu.
      destruct (He u ids Hu) as (? & ? & _). split_and!; [done..|].
      intros c Hin. apply (Hlive u ids c Hu Hin). intros ->.
      by specialize (Hmine u ids Hu Hin). }
  destruct (userIdOf user) as [userId|] eqn:Huid; simpl in *.
  2:{ split; [done|]. simpl. intros u ids Hu.
      destruct (He u ids Hu) as (? & ? & _). split_and!; [done..|].
      intros c Hin. apply (Hlive u ids c Hu Hin). intros ->.
      by specialize (Hmine u ids Hu Hin). }
  split; [done|]. simpl. intros u ids. unfold unregister.
  destruct (userSockets g !! userId) as [ids0|] eqn:H0.
  - destruct (decide (length (set_delete socketId ids0) = 0%nat)) as [Hlen|Hlen].
    + rewrite lookup_delete. case_decide as Hu; [done|]. intros Hids.
      destruct (He u ids Hids) as (? & ? & _). split_and!; [done..|].
      intros c Hin. apply (Hlive u ids c Hids Hin). intros ->.
      specialize (Hmine u ids Hids Hin). congruence.
    + rewrite lookup_insert. case_decide as Hu.
      * intros [= <-]. subst u. destruct (He _ _ H0) as (_ & Hnd & _).
        split_and!.
        -- intros Hnil. by rewrite Hnil in Hlen.
        -- by apply NoDup_filter.
        -- intros c [Hne Hin]%set_delete_elem. by apply (Hlive userId ids0).
      * intros Hids. destruct (He u ids Hids) as (? & ? & _).
        split_and!; [done..|].
        intros c Hin. apply (Hlive u ids c Hids Hin). intros ->.
        specialize (Hmine u ids Hids Hin). congruence.
  - intros Hids. destruct (He u ids Hids) as (? & ? & _). split_and!; [done..|].
    intros c Hin. apply (Hlive u ids c Hids Hin). intros ->.
    specialize (Hmine u ids Hids Hin). congruence.
Qed.


Lemma registry_inv_sendToUser g userId event d options :
  registry_inv g →
  registry_inv (sendToUser userId event d options g).1.2.
Proof.
  intros [Hk He]. unfold sendToUser.
  destruct userId as [| |u|o]; try done. simpl.
  destruct (userSockets g !! u) as [ids|] eqn:Hu; [|done].
  case_bool_decide; [|done].
  pose proof (deliverLoop_ids (server_sockets g) (roomNameOf options)
    (multiOf options) event d (reverse ids) ids false []) as Hsub.
  destruct (deliverLoop _ _ _ _ _ _ _ _ _) as [[ids' del] out]. simpl in *.
  destruct (He u ids Hu) as (_ & Hnd & Hl).
  split; [done|]. simpl. intros v l.
  destruct (decide (length ids' = 0%nat)) as [Hlen|Hlen].
  - rewrite lookup_delete. case_decide; [done | apply He].
  - rewrite lookup_insert. case_decide as Hv; [|apply He].
    intros [= <-]. subst v. split_and!.
    + intros Hnil. by rewrite Hnil in Hlen.
    + by eapply sublist_NoDup.
    + intros c Hc. apply Hl. by eapply elem_of_sublist.
Qed.

Lemma registry_inv_recent g recent :
  registry_inv g → registry_inv (with_recentSignals g recent).
Proof. intros H. exact H. Qed.

Lemma registry_inv_onSendText now client body g :
  registry_inv g → registry_inv (gateway (onSendText now client body g)).
Proof.
  intros Hinv. unfold onSendText.
  destruct (sock_user client); [|done].
  destruct (is_webrtc_signal _).
  - destruct (normalizeSignalType _) as [st|]; [|done].
    destruct (isDuplicateSignal _ _ _ _) as [[] recent']; simpl; [done|].
    destruct (truthy _); [|done].
    pose proof (registry_inv_sendToUser (with_recentSignals g recent')
      (targetId body) "newMessage" (DataBody body)
      (Some (signalOptions st body)) (registry_inv_recent g recent' Hinv)) as H.
    by destruct (sendToUser _ _ _ _ _) as [[sent g2] out].
  - by destruct (messageService_sendText _ _).
Qed.

Lemma registry_inv_step clock g g' :
  registry_inv g → step clock g g' → registry_inv g'.
Proof.
  intros Hinv Hstep.
  destruct Hstep as [c hs g Hf|c cl g Hc|c cl room g Hc|c cl room g Hc
                    |now c cl body g _ Hc|c cl body g Hc|userId ev d o g|room m g].
  - by apply registry_inv_connect.
  - by eapply registry_inv_disconnect.
  - unfold onJoinRoom. destruct (sock_user cl) eqn:Hu; [|done]. simpl.
    apply registry_inv_put; [done|done|]. intros cl'.
    rewrite (proj1 Hinv _ _ Hc), Hc. by intros [= <-].
  - unfold onLeaveRoom. simpl.
    apply registry_inv_put; [done|done|]. intros cl'.
    rewrite (proj1 Hinv _ _ Hc), Hc. by intros [= <-].
  - by apply registry_inv_onSendText.
  - unfold onSignal. destruct (sock_user cl); [|done].
    by destruct (messageService_sendSignal _ _).
  - by apply registry_inv_sendToUser.
  - done.
Qed.

Lemma registry_inv_reachable g : reachable g → registry_inv g.
Proof.
  unfold reachable. revert g.
  apply (rtc_ind_r (λ g, registry_inv g)); [apply registry_inv_initial|].
  intros g g' _ Hstep Hinv. by eapply registry_inv_step.
Qed.

(** C4: in every reachable state no identity maps to an empty connection
    set and a connection id is registered under at most one identity; after
    a connection disconnects it is in no [connectionsFor], and when it was
    its identity's last connection [isUserOnline] is false. *)
Theorem C4_registry_invariant g :
  reachable g →
  (∀ u ids, userSockets g !! u = Some ids → ids ≠ [])
  ∧ (∀ u1 u2 c, c ∈ connectionsFor u1 g → c ∈ connectionsFor u2 g → u1 = u2)
  ∧ (∀ socketId client u,
       server_sockets g !! socketId = Some client →
       (socketId ∉ connectionsFor u (disconnect client g))
       ∧ (connectionsFor u g = [socketId] →
          isUserOnline u (disconnect client g) = false)).
Proof.
  intros Hr. pose proof (registry_inv_reachable g Hr) as [Hk He].
  assert (∀ u c, c ∈ connectionsFor u g →
            ∃ s, server_sockets g !! c = Some s
                 ∧ sock_user s ≫= userIdOf = Some u) as Hown.
  { intros u c. unfold connectionsFor.
    destruct (userSockets g !! u) as [ids|] eqn:Hu; simpl.
    - intros Hc. by apply (He u ids Hu).
    - by intros ?%not_elem_of_nil. }
  split_and!.
  - intros u ids Hu. by apply (He u ids Hu).
  - intros u1 u2 c H1 H2.
    destruct (Hown _ _ H1) as (s1 & Hs1 & Hu1).
    destruct (Hown _ _ H2) as (s2 & Hs2 & Hu2). congruence.
  - intros socketId client u Hc.
    assert (reachable (disconnect client g)) as Hr'.
    { eapply rtc_r; [exact Hr|]. by eapply step_disconnect. }
    pose proof (registry_inv_reachable _ Hr') as [_ He'].
    assert (socketId ∉ connectionsFor u (disconnect client g)) as Hgone.
    { unfold connectionsFor.
      destruct (userSockets (disconnect client g) !! u) as [ids|] eqn:Hu; simpl;
        [|apply not_elem_of_nil].
      intros Hin. destruct (He' u ids Hu) as (_ & _ & Hl).
      destruct (Hl _ Hin) as (s & Hs & _). revert Hs.
      unfold disconnect, handleDisconnect. rewrite (Hk _ _ Hc).
      destruct (sock_user client) as [user|]; simpl;
        [destruct (userIdOf user); simpl|]; by rewrite lookup_delete_eq. }
    split; [done|].
    intros Hlast. unfold isUserOnline.
    destruct (userSockets (disconnect client g) !! u) as [ids|] eqn:Hu; [|done].
    exfalso. destruct (He' u ids Hu) as (Hne & _ & _).
    revert Hu Hgone. unfold connectionsFor in *.
    unfold disconnect, handleDisconnect. rewrite (Hk _ _ Hc).
    destruct (userSockets g !! u) as [l|] eqn:Hl; simpl in Hlast; [|done].
    subst l. destruct (He u _ Hl) as (_ & _ & Hlive).
    destruct (Hlive socketId) as (s & Hs & Hsu); [by left|].
    assert (s = client) as -> by congruence.
    destruct (sock_user client) as [user|]; [|done]. simpl in Hsu.
    rewrite Hsu. simpl. unfold unregister. rewrite Hl.
    rewrite set_delete_last. simpl. by rewrite lookup_delete_eq.
Qed.


(** ** Targeted delivery and the room fallback *)

Lemma multiTarget_not_roomScoped st :
  has multiTargetSignals st = true → has roomScopedSignals st = false.
Proof.
  unfold has. intros Hm%bool_decide_eq_true.
  assert (st = "call-request") as ->.
  { unfold multiTargetSignals in Hm. rewrite elem_of_list_to_set in Hm.
    by apply list_elem_of_singleton in Hm. }
  by vm_compute.
Qed.

Lemma filter_all {A} (f : A → bool) l :
  (∀ x, x ∈ l → f x = true) → List.filter f l = l.
Proof.
  induction l as [|a l IH]; intros H; simpl; [done|].
  rewrite (H a) by left. f_equal. apply IH. intros x Hx. apply H. by right.
Qed.

Lemma filter_none {A} (f : A → bool) l :
  (∀ x, x ∈ l → f x = false) → List.filter f l = [].
Proof.
  induction l as [|a l IH]; intros H; simpl; [done|].
  rewrite (H a) by left. apply IH. intros x Hx. apply H. by right.
Qed.

Lemma nonempty_length {A} (l : list A) : (0 < length l)%nat → nonempty l = true.
Proof. destruct l; simpl; [lia | done]. Qed.

Lemma candidatesOf_all_live g options ids :
  roomNameOf options = None →
  (∀ c, c ∈ ids → is_Some (server_sockets g !! c)) →
  candidatesOf g options ids = reverse ids.
Proof.
  intros Hr Hlive. unfold candidatesOf. apply filter_all.
  intros c Hc. unfold eligible. rewrite Hr.
  rewrite elem_of_reverse in Hc. by destruct (Hlive c Hc) as [s ->].
Qed.

Lemma signalOptions_unscoped st body :
  has roomScopedSignals st = false →
  roomNameOf (Some (signalOptions st body)) = None.
Proof. intros H. unfold roomNameOf, signalOptions. simpl. by rewrite H. Qed.

(** C1: a targeted multi-target signal is emitted to every live connection
    of the target, newest first; a targeted signal that is not multi-target
    is emitted to exactly one connection, the newest candidate, which is
    the most recently registered connection when the type is not
    room-scoped. *)
Theorem C1_targeted_delivery now client user body g st u ids :
  SignalFrom client user body st →
  (isDuplicateSignal now st body (recentSignals g)).1 = false →
  targetId body = VStr u →
  u ≠ "" →
  userSockets g !! u = Some ids →
  (0 < length ids)%nat →
  let out := effects (onSendText now client body g) in
  let emit := emitTo "newMessage" (DataBody body) in
  let cands := candidatesOf g (Some (signalOptions st body)) ids in
  let all_live := ∀ c, c ∈ ids → is_Some (server_sockets g !! c) in
  (has multiTargetSignals st = true → all_live →
     out = emit <$> reverse ids ∧ length out = length ids)
  ∧ (has multiTargetSignals st = true → cands ≠ [] → out = emit <$> cands)
  ∧ (has multiTargetSignals st = false →
     ∀ c rest, cands = c :: rest → out = [emit c])
  ∧ (has multiTargetSignals st = false → has roomScopedSignals st = false →
     all_live → ∀ front c, ids = front ++ [c] → out = [emit c]).
Proof.
  intros (Hu & Hm & Hn) Hd Ht Hne Hids Hlen out emit cands all_live.
  assert (truthy (targetId body) = true) as Htr.
  { rewrite Ht. simpl. apply negb_true_iff, String.eqb_neq. done. }
  pose proof (onSendText_signal_effects now client user body g st Hu Hm Hn Hd)
    as Heff.
  simpl in Heff. rewrite Htr, Ht in Heff. simpl in Heff. rewrite Hids in Heff.
  simpl in Heff. fold cands in Heff. fold out in Heff. fold emit in Heff.
  split_and!.
  - intros Hmulti Hlive.
    assert (cands = reverse ids) as Hc.
    { apply candidatesOf_all_live; [|done].
      by apply signalOptions_unscoped, multiTarget_not_roomScoped. }
    rewrite Heff, Hc, Hmulti, nonempty_length by (by rewrite length_reverse).
    simpl. split; [done|]. by rewrite length_fmap, length_reverse.
  - intros Hmulti Hc. rewrite Heff, Hmulti. by destruct cands.
  - intros Hmulti c rest Hc. rewrite Heff, Hmulti, Hc. done.
  - intros Hmulti Hscope Hlive front c Hfront.
    assert (cands = reverse ids) as Hc.
    { apply candidatesOf_all_live; [|done]. by apply signalOptions_unscoped. }
    rewrite Heff, Hc, Hmulti, Hfront, reverse_snoc. done.
Qed.

(** C3: a targeted signal whose target has no connection left to deliver
    to (no registry entry, sockets gone, or every candidate outside the
    room of a room-scoped signal) is broadcast to the room except the
    sender. *)
Theorem C3_room_fallback now client user body g st :
  SignalFrom client user body st →
  (isDuplicateSignal now st body (recentSignals g)).1 = false →
  truthy (targetId body) = true →
  (∀ c, c ∈ default [] (registryGet (targetId body) (userSockets g)) →
     server_sockets g !! c = None
     ∨ ∃ s, server_sockets g !! c = Some s
            ∧ has roomScopedSignals st = true
            ∧ truthy (roomId body) = true
            ∧ roomOf (roomId body) ∉ sock_rooms s) →
  let o := onSendText now client body g in
  effects o = [roomFallback client body]
  ∧ (∀ e, e ∈ effects o →
       recipients (server_sockets g) e
       = members (roomOf (roomId body)) (server_sockets g) ∖ {[sock_id client]}).
Proof.
  intros (Hu & Hm & Hn) Hd Ht Hnone o. subst o.
  cut (effects (onSendText now client body g) = [roomFallback client body]).
  { intros ->. split; [done|]. by intros e ->%list_elem_of_singleton. }
  rewrite (onSendText_signal_effects now client user body g st Hu Hm Hn Hd).
  simpl. rewrite Ht. simpl.
  unfold candidatesOf. rewrite filter_none; [done|].
  intros c Hc. rewrite elem_of_reverse in Hc. unfold eligible.
  destruct (Hnone c Hc) as [->|(s & -> & Hs & Hr & Hout)]; [done|].
  unfold roomNameOf, signalOptions. simpl. rewrite Hs, Hr.
  by apply bool_decide_eq_false_2.
Qed.


(** ** Deduplication *)

Lemma cleanupRecentSignals_lookup now m k t :
  cleanupRecentSignals now m !! k = Some t
  ↔ m !! k = Some t ∧ now - t ≤ dedupWindowMs * 2.
Proof.
  unfold cleanupRecentSignals. rewrite map_lookup_filter_Some. simpl.
  split; intros [? ?]; (split; [done|lia]).
Qed.

Lemma isDuplicateSignal_false now st body recent :
  has dedupSignals st = true →
  (isDuplicateSignal now st body recent).1 = false →
  isDuplicateSignal now st body recent
  = (false, cleanupRecentSignals now (<[dedupKey st body := now]> recent)).
Proof.
  unfold isDuplicateSignal. intros ->. simpl.
  by destruct (withinWindow now (recent !! dedupKey st body)).
Qed.

Lemma isDuplicateSignal_records now st body recent :
  has dedupSignals st = true →
  (isDuplicateSignal now st body recent).1 = false →
  (isDuplicateSignal now st body recent).2 !! dedupKey st body = Some now.
Proof.
  intros He Hd. rewrite (isDuplicateSignal_false _ _ _ _ He Hd). simpl.
  apply cleanupRecentSignals_lookup. rewrite lookup_insert_eq.
  split; [done|]. unfold dedupWindowMs. lia.
Qed.

Lemma onSendText_signal_recent now client user body g st :
  SignalFrom client user body st →
  recentSignals (gateway (onSendText now client body g))
  = (isDuplicateSignal now st body (recentSignals g)).2.
Proof.
  intros (Hu & Hm & Hn). unfold onSendText. rewrite Hu, Hm, Hn.
  destruct (isDuplicateSignal _ _ _ _) as [[] recent']; simpl; [done|].
  destruct (truthy (targetId body)) eqn:Ht; [|done].
  destruct (registryGet (targetId body) (userSockets g)) as [l|] eqn:Hg.
  - destruct (targetId body) as [| |u|o]; try done. simpl in Hg.
    pose proof (sendToUser_present u l "newMessage" (DataBody body)
      (Some (signalOptions st body)) (with_recentSignals g recent') Hg)
      as (_ & _ & _ & Hr).
    by destruct (sendToUser _ _ _ _ _) as [[sent g2] out].
  - by rewrite sendToUser_absent.
Qed.

(** A signal that is not absorbed is always emitted somewhere. *)
Lemma onSendText_signal_delivers now client user body g st :
  SignalFrom client user body st →
  (isDuplicateSignal now st body (recentSignals g)).1 = false →
  effects (onSendText now client body g) ≠ [].
Proof.
  intros (Hu & Hm & Hn) Hd.
  rewrite (onSendText_signal_effects now client user body g st Hu Hm Hn Hd).
  simpl. destruct (truthy (targetId body)); [|done]. simpl.
  destruct (candidatesOf _ _ _); [done|]. simpl.
  by destruct (has multiTargetSignals st).
Qed.

(** Two signals with one dedup key, the first one delivered at [now1]. *)
Lemma dedup_pair now1 now2 c1 u1 b1 c2 u2 b2 g st :
  SignalFrom c1 u1 b1 st →
  SignalFrom c2 u2 b2 st →
  has dedupSignals st = true →
  dedupKey st b1 = dedupKey st b2 →
  now1 ≠ 0 →
  let o1 := onSendText now1 c1 b1 g in
  let o2 := onSendText now2 c2 b2 (gateway o1) in
  reply o1 = ReplyOkType "webrtc_signal" false →
  effects o1 ≠ []
  ∧ (now2 - now1 < dedupWindowMs →
     reply o2 = ReplyOkType "webrtc_signal" true
     ∧ effects o2 = []
     ∧ gateway o2 = gateway o1
     ∧ recentSignals (gateway o2) !! dedupKey st b1 = Some now1)
  ∧ (dedupWindowMs ≤ now2 - now1 →
     reply o2 = ReplyOkType "webrtc_signal" false
     ∧ effects o2 ≠ []
     ∧ recentSignals (gateway o2) !! dedupKey st b2 = Some now2).
Proof.
  intros H1 H2 He Hk Hnz o1 o2 Hr1.
  pose proof H1 as (Hu1 & Hm1 & Hn1). pose proof H2 as (Hu2 & Hm2 & Hn2).
  assert ((isDuplicateSignal now1 st b1 (recentSignals g)).1 = false) as Hd1.
  { subst o1. rewrite (onSendText_signal_reply _ _ _ _ _ _ Hu1 Hm1 Hn1) in Hr1.
    injection Hr1 as Hr1. exact Hr1. }
  assert (recentSignals (gateway o1) !! dedupKey st b2 = Some now1) as Hseen.
  { subst o1. rewrite (onSendText_signal_recent _ _ _ _ _ _ H1), <- Hk.
    by apply isDuplicateSignal_records. }
  split; [by eapply onSendText_signal_delivers|]. split.
  - intros Hin.
    assert ((isDuplicateSignal now2 st b2 (recentSignals (gateway o1))).1 = true)
      as Hd2.
    { unfold isDuplicateSignal. rewrite He, Hseen. simpl.
      assert ((now1 =? 0) = false) as -> by lia.
      assert ((now2 - now1 <? dedupWindowMs) = true) as -> by lia. done. }
    subst o2. rewrite (onSendText_signal_deduped _ _ _ _ _ _ Hu2 Hm2 Hn2 Hd2).
    split_and!; [reflexivity..|]. rewrite Hk. exact Hseen.
  - intros Hout.
    assert ((isDuplicateSignal now2 st b2 (recentSignals (gateway o1))).1 = false)
      as Hd2.
    { unfold isDuplicateSignal. rewrite He, Hseen. simpl.
      assert ((now2 - now1 <? dedupWindowMs) = false) as -> by lia.
      by rewrite andb_false_r. }
    subst o2. split_and!.
    + by rewrite (onSendText_signal_reply _ _ _ _ _ _ Hu2 Hm2 Hn2), Hd2.
    + by eapply onSendText_signal_delivers.
    + rewrite (onSendText_signal_recent _ _ _ _ _ _ H2).
      by apply isDuplicateSignal_records.
Qed.

(** The contract of the cache on any state: an entry that is younger than
    the window answers [true] and is left alone; otherwise the call answers
    [false] and records [now]. *)
Lemma isDuplicateSignal_contract now st body recent :
  has dedupSignals st = true →
  let r := isDuplicateSignal now st body recent in
  (withinWindow now (recent !! dedupKey st body) = true → r = (true, recent))
  ∧ (withinWindow now (recent !! dedupKey st body) = false →
     r.1 = false ∧ r.2 !! dedupKey st body = Some now).
Proof.
  intros He r. subst r. split; intros Hw.
  - unfold isDuplicateSignal. by rewrite He, Hw.
  - assert ((isDuplicateSignal now st body recent).1 = false) as Hd.
    { unfold isDuplicateSignal. by rewrite He, Hw. }
    split; [exact Hd|]. by apply isDuplicateSignal_records.
Qed.

(** *** Other traffic between the two signals

    The entry of the first signal survives whatever the gateway does until
    twice the window after it, so the retry is absorbed also when other
    messages come in between. *)

Lemma sendToUser_recent userId event d options g :
  recentSignals (sendToUser userId event d options g).1.2 = recentSignals g.
Proof.
  destruct (registryGet userId (userSockets g)) as [l|] eqn:Hg.
  - destruct userId as [| |u|o]; try done. simpl in Hg.
    by destruct (sendToUser_present u l event d options g Hg) as (_ & _ & _ & ?).
  - by rewrite sendToUser_absent.
Qed.

Lemma onSendText_recent now client body g :
  recentSignals (gateway (onSendText now client body g)) = recentSignals g
  ∨ ∃ st, recentSignals (gateway (onSendText now client body g))
          = (isDuplicateSignal now st body (recentSignals g)).2.
Proof.
  destruct (sock_user client) as [user|] eqn:Hu;
    [|left; unfold onSendText; by rewrite Hu].
  destruct (is_webrtc_signal (messageType body)) eqn:Hm.
  - destruct (normalizeSignalType (signalType body)) as [st|] eqn:Hn.
    + right. exists st. by apply (onSendText_signal_recent _ _ user).
    + left. unfold onSendText. by rewrite Hu, Hm, Hn.
  - left. unfold onSendText. rewrite Hu, Hm.
    by destruct (messageService_sendText body user).
Qed.

Lemma holds_since_isDuplicateSignal key since now st body recent :
  0 < since →
  now ≤ since + 2 * dedupWindowMs →
  (∃ t, recent !! key = Some t ∧ since ≤ t) →
  ∃ t, (isDuplicateSignal now st body recent).2 !! key = Some t ∧ since ≤ t.
Proof.
  intros Hpos Hnow (t & Ht & Hle). unfold isDuplicateSignal.
  destruct (negb (has dedupSignals st)); [by exists t|].
  destruct (withinWindow now (recent !! dedupKey st body)) eqn:Hw; [by exists t|].
  simpl. destruct (decide (dedupKey st body = key)) as [Hk|Hk].
  - exists now. rewrite cleanupRecentSignals_lookup, Hk, lookup_insert_eq.
    split; [split; [done | unfold dedupWindowMs; lia]|].
    rewrite Hk, Ht in Hw. simpl in Hw.
    apply andb_false_iff in Hw as [Hw|Hw]; unfold dedupWindowMs in *; lia.
  - exists t. rewrite cleanupRecentSignals_lookup, lookup_insert_ne by done.
    split; [split; [done | lia]|done].
Qed.

Lemma holds_since_step key since g g' :
  0 < since →
  step (until (since + 2 * dedupWindowMs)) g g' →
  holds_since key since g → holds_since key since g'.
Proof.
  intros Hpos Hstep Hold.
  destruct Hstep as [c hs g Hf|c cl g Hc|c cl room g Hc|c cl room g Hc
                    |now c cl body g Hnow Hc|c cl body g Hc|userId ev d o g
                    |room m g].
  - unfold connect, handleConnection. destruct (str_truthy _); [|done].
    destruct (jwt_verify _) as [payload|]; [|done].
    simpl. by destruct (userIdOf payload).
  - unfold disconnect, handleDisconnect.
    destruct (sock_user cl) as [user|]; [|done]. by destruct (userIdOf user).
  - unfold onJoinRoom. by destruct (sock_user cl).
  - done.
  - unfold holds_since.
    destruct (onSendText_recent now cl body g) as [->|[st ->]]; [done|].
    by apply holds_since_isDuplicateSignal.
  - unfold onSignal. destruct (sock_user cl) as [user|]; [|done].
    by destruct (messageService_sendSignal body user).
  - unfold holds_since, sendMessageToUser. by rewrite sendToUser_recent.
  - done.
Qed.

(** After the first signal was delivered at [now1], and whatever happened
    until twice the window after it, a signal with the same key that comes
    less than the window after [now1] is absorbed. *)
Lemma dedup_survives_interleaving now1 now2 c1 u1 b1 c2 u2 b2 g g2 st :
  SignalFrom c1 u1 b1 st →
  SignalFrom c2 u2 b2 st →
  has dedupSignals st = true →
  dedupKey st b1 = dedupKey st b2 →
  0 < now1 →
  reply (onSendText now1 c1 b1 g) = ReplyOkType "webrtc_signal" false →
  rtc (step (until (now1 + 2 * dedupWindowMs)))
      (gateway (onSendText now1 c1 b1 g)) g2 →
  now2 - now1 < dedupWindowMs →
  onSendText now2 c2 b2 g2
  = {| reply := ReplyOkType "webrtc_signal" true; gateway := g2; effects := [] |}.
Proof.
  intros H1 H2 He Hk Hpos Hr1 Hrun Hin.
  pose proof H1 as (Hu1 & Hm1 & Hn1). pose proof H2 as (Hu2 & Hm2 & Hn2).
  assert (holds_since (dedupKey st b2) now1 g2) as (t & Ht & Hle).
  { revert Hrun. apply (rtc_ind_r (λ g', holds_since (dedupKey st b2) now1 g')).
    - exists now1. split; [|lia].
      rewrite (onSendText_signal_recent _ _ _ _ _ _ H1), <- Hk.
      apply isDuplicateSignal_records; [done|].
      rewrite (onSendText_signal_reply _ _ _ _ _ _ Hu1 Hm1 Hn1) in Hr1.
      injection Hr1 as Hr1. exact Hr1.
    - intros g' g'' _ Hstep Hold. by eapply holds_since_step. }
  apply (onSendText_signal_deduped _ _ u2 _ _ st Hu2 Hm2 Hn2).
  unfold isDuplicateSignal. rewrite He, Ht. simpl.
  assert ((t =? 0) = false) as -> by lia.
  assert ((now2 - t <? dedupWindowMs) = true) as -> by lia. done.
Qed.

(** C2: of two dedup-eligible signals with the same fingerprint, the first
    one delivered at [now1], the second is absorbed when it comes less than
    the window after the first (no emit, [deduped: true], the stored
    timestamp stays [now1]) and is delivered when it comes a window or more
    after it. *)
Theorem C2_dedup_window now1 now2 c1 u1 b1 c2 u2 b2 g st :
  SignalFrom c1 u1 b1 st →
  SignalFrom c2 u2 b2 st →
  has dedupSignals st = true →
  dedupKey st b1 = dedupKey st b2 →
  now1 ≠ 0 →
  let o1 := onSendText now1 c1 b1 g in
  let o2 := onSendText now2 c2 b2 (gateway o1) in
  reply o1 = ReplyOkType "webrtc_signal" false →
  effects o1 ≠ []
  ∧ (now2 - now1 < dedupWindowMs →
     reply o2 = ReplyOkType "webrtc_signal" true
     ∧ effects o2 = []
     ∧ gateway o2 = gateway o1
     ∧ recentSignals (gateway o2) !! dedupKey st b1 = Some now1)
  ∧ (dedupWindowMs ≤ now2 - now1 →
     reply o2 = ReplyOkType "webrtc_signal" false
     ∧ effects o2 ≠ []
     ∧ recentSignals (gateway o2) !! dedupKey st b2 = Some now2).
Proof. apply dedup_pair. Qed.

(** C7, as the code has it: a signalling message that is routed without
    error is answered [{ ok: true, type: 'webrtc_signal' }], the constant
    message type, and the answer carries [deduped: true] exactly when
    [isDuplicateSignal] reported a duplicate. *)
Theorem C7_signal_reply now client user body g st :
  SignalFrom client user body st →
  let o := onSendText now client body g in
  let dup := (isDuplicateSignal now st body (recentSignals g)).1 in
  reply o = ReplyOkType "webrtc_signal" dup
  ∧ (reply o = ReplyOkType "webrtc_signal" true ↔ dup = true).
Proof.
  intros (Hu & Hm & Hn) o dup. subst o dup.
  rewrite (onSendText_signal_reply _ _ _ _ _ _ Hu Hm Hn).
  split; [reflexivity|]. split; [intros [= ->] | intros ->]; reflexivity.
Qed.

(** C8, as the code has it: a call of the dedup check that records a
    timestamp (eligible type, no duplicate) leaves exactly the entries, the
    new one included, whose timestamp is at most twice the window old. *)
Theorem C8_sweep_on_record now st body recent :
  has dedupSignals st = true →
  (isDuplicateSignal now st body recent).1 = false →
  let recent' := (isDuplicateSignal now st body recent).2 in
  (∀ k t, recent' !! k = Some t → now - t ≤ 2 * dedupWindowMs)
  ∧ (∀ k t, recent' !! k = Some t
       ↔ <[dedupKey st body := now]> recent !! k = Some t
         ∧ now - t ≤ 2 * dedupWindowMs).
Proof.
  intros He Hd recent'. subst recent'.
  rewrite (isDuplicateSignal_false _ _ _ _ He Hd). simpl.
  split; intros k t; rewrite cleanupRecentSignals_lookup; [lia|].
  split; intros [? ?]; (split; [done|lia]).
Qed.


(** ** The payload prefix of the dedup key *)

Lemma substring_prefix n s :
  (∃ rest, s = substring 0 n s +:+ rest)
  ∧ String.length (substring 0 n s) = Nat.min n (String.length s).
Proof.
  revert s. induction n as [|n IH]; intros [|a s]; simpl.
  - split; [by exists ""|done].
  - split; [by exists (String a s)|done].
  - split; [by exists ""|done].
  - destruct (IH s) as [[rest Hrest] Hlen]. split.
    + exists rest. change (String a s = String a (substring 0 n s +:+ rest)).
      by rewrite <- Hrest.
    + by rewrite Hlen.
Qed.

(** C9: the dedup key holds only the first 64 characters of the payload
    (of the string itself, else of its JSON serialisation; the empty string
    when the serialisation throws or the payload is absent, that is,
    falsy), so two eligible signals of one type, sender, target and room
    whose payloads agree on that prefix have one key, and the second is
    absorbed within the window. *)
Theorem C9_payload_prefix now1 now2 c1 u1 b1 c2 u2 b2 g st :
  SignalFrom c1 u1 b1 st →
  SignalFrom c2 u2 b2 st →
  has dedupSignals st = true →
  senderId b1 = senderId b2 →
  targetId b1 = targetId b2 →
  roomId b1 = roomId b2 →
  payloadHashOf b1 = payloadHashOf b2 →
  now1 ≠ 0 →
  now2 - now1 < dedupWindowMs →
  let o1 := onSendText now1 c1 b1 g in
  let o2 := onSendText now2 c2 b2 (gateway o1) in
  reply o1 = ReplyOkType "webrtc_signal" false →
  (dedupKey st b1 = dedupKey st b2
   ∧ reply o2 = ReplyOkType "webrtc_signal" true
   ∧ effects o2 = [])
  ∧ (∀ s, (∃ rest, s = slice64 s +:+ rest)
          ∧ String.length (slice64 s) = Nat.min 64 (String.length s))
  ∧ (∀ b s, data b = VStr s → payloadHashOf b = slice64 s)
  ∧ (∀ b o j, data b = VOther o → other_truthy o = true →
       other_stringify o = Some j → payloadHashOf b = slice64 j)
  ∧ (∀ b o, data b = VOther o → other_stringify o = None →
       payloadHashOf b = "")
  ∧ (∀ b, truthy (data b) = false → payloadHashOf b = "").
Proof.
  intros H1 H2 He Hs Ht Hr Hp Hnz Hin o1 o2 Hr1.
  assert (dedupKey st b1 = dedupKey st b2) as Hk.
  { unfold dedupKey. by rewrite Hs, Ht, Hr, Hp. }
  destruct (dedup_pair now1 now2 c1 u1 b1 c2 u2 b2 g st H1 H2 He Hk Hnz Hr1)
    as (_ & Hdup & _).
  destruct (Hdup Hin) as (Hreply & Hnone & _).
  split; [done|]. split_and!.
  - intros s. apply substring_prefix.
  - intros b s Hd. unfold payloadHashOf. rewrite Hd. simpl.
    destruct s; done.
  - intros b o j Hd Htr Hj. unfold payloadHashOf. rewrite Hd. simpl.
    by rewrite Htr, Hj.
  - intros b o Hd Hj. unfold payloadHashOf. rewrite Hd. simpl.
    rewrite Hj. by destruct (other_truthy o).
  - intros b Hf. unfold payloadHashOf. by rewrite Hf.
Qed.

(** ** ice-candidate *)

Lemma candidatesOf_elem g options ids c :
  c ∈ candidatesOf g options ids
  ↔ c ∈ ids ∧ eligible (server_sockets g) (roomNameOf options) c = true.
Proof.
  unfold candidatesOf.
  by rewrite list_elem_of_In, filter_In, <- list_elem_of_In, elem_of_reverse.
Qed.


(** ** Anonymous connections and chat messages *)

(** C5, as the code has it: for a connection without a verified identity
    [joinRoom] is rejected with [Unauthorized] and neither joins nor emits;
    [leaveRoom] succeeds; [sendText] and [signal] are rejected with
    [Unauthorized], emit nothing and call no service. *)
Theorem C5_anonymous client g :
  sock_user client = None →
  ∀ room now body sbody,
    let unauthorized : @Outcome Other Msg SigMsg :=
      {| reply := ReplyError "Unauthorized"; gateway := g; effects := [] |} in
    let left : @Outcome Other Msg SigMsg := onLeaveRoom client room g in
    onJoinRoom client room g = unauthorized
    ∧ reply left = ReplyOkRoom room
    ∧ effects left
      = [ServerRoomEmit (roomOf room) "presence"
           (DataPresence (sock_id client) "left" room)]
    ∧ (∀ s, server_sockets (gateway left) !! sock_id client = Some s →
            roomOf room ∉ sock_rooms s)
    ∧ onSendText now client body g = unauthorized
    ∧ onSignal client sbody g = unauthorized.
Proof.
  intros Hu room now body sbody unauthorized left. subst unauthorized left.
  unfold onJoinRoom, onSendText, onSignal. rewrite Hu.
  split_and!; try done.
  intros s. simpl. rewrite lookup_insert_eq. intros [= <-]. simpl.
  intros [_ Hn]%elem_of_difference. apply Hn. by apply elem_of_singleton.
Qed.

(** C6: for a chat message of an authenticated sender, a failure of the
    persistence call is answered to the caller and nothing is emitted; on
    success the persisted message is emitted to the whole room and
    returned. *)
Theorem C6_chat_persistence now client user body g :
  sock_user client = Some user →
  is_webrtc_signal (messageType body) = false →
  let o := onSendText now client body g in
  let broadcast msg :=
    ServerRoomEmit (roomOf (roomId body)) "newMessage" (DataMsg msg) in
  (∀ message, messageService_sendText body user = inl message →
     reply o = ReplyError message
     ∧ effects o = [CallSendText body user]
     ∧ gateway o = g)
  ∧ (∀ msg, messageService_sendText body user = inr msg →
       reply o = ReplyMsg msg
       ∧ effects o = [CallSendText body user; broadcast msg]
       ∧ recipients (server_sockets g) (broadcast msg)
         = members (roomOf (roomId body)) (server_sockets g)
       ∧ gateway o = g).
Proof.
  intros Hu Hm o broadcast. subst o. unfold onSendText. rewrite Hu, Hm.
  split; intros m ->; done.
Qed.

End Properties.

(** * More properties of the gateway *)

Section GatewayProperties.
Context {Other Msg SigMsg : Type} {Host : JsHost Other}.
Context {Svc : Services (@Body Other) (@SignalBody Other) Msg SigMsg}.

Implicit Types (body b : @Body Other) (sbody : @SignalBody Other).
Implicit Types (userId room : @JsVal Other) (options : option (@Options Other)).
Implicit Types (d : @Emitted Other Msg SigMsg).

Lemma gateway_eq (g1 g2 : Gateway) :
  userSockets g1 = userSockets g2 →
  recentSignals g1 = recentSignals g2 →
  server_sockets g1 = server_sockets g2 →
  g1 = g2.
Proof. destruct g1, g2. simpl. by intros -> -> ->. Qed.

Lemma set_delete_fresh x s : x ∉ s → set_delete x s = s.
Proof.
  intros Hx. unfold set_delete. induction s as [|a s IH]; [done|].
  rewrite filter_cons. destruct (decide (a ≠ x)) as [Hne|Heq].
  - f_equal. apply IH. intros Hin. apply Hx. by right.
  - exfalso. apply Hx. destruct (decide (a = x)) as [->|]; [by left | done].
Qed.

Lemma set_delete_snoc x s : x ∉ s → set_delete x (s ++ [x]) = s.
Proof.
  intros Hx. unfold set_delete. rewrite filter_app.
  fold (set_delete x s). rewrite (set_delete_fresh x s Hx).
  rewrite filter_cons, decide_False, filter_nil, app_nil_r; [done|].
  intros Hne. by apply Hne.
Qed.

Lemma set_add_fresh x s : x ∉ s → set_add x s = s ++ [x].
Proof. intros Hx. unfold set_add. by destruct (decide (x ∈ s)). Qed.

Lemma unregister_register (u socketId : string) (m : gmap string (list string)) :
  (∀ ids, m !! u = Some ids → ids ≠ [] ∧ socketId ∉ ids) →
  unregister u socketId (register u socketId m) = m.
Proof.
  intros Hm. unfold unregister, register. rewrite lookup_insert_eq.
  destruct (m !! u) as [ids|] eqn:Hl; simpl.
  - destruct (Hm ids eq_refl) as [Hne Hfresh].
    rewrite set_add_fresh, set_delete_snoc by done.
    destruct (decide (length ids = 0%nat)) as [Hlen|Hlen].
    + by destruct ids.
    + rewrite insert_insert_eq. by apply insert_id.
  - rewrite set_add_fresh by apply not_elem_of_nil.
    simpl. rewrite set_delete_last. simpl. by apply delete_insert_id.
Qed.

(** X1: a socket that connects and disconnects at once leaves the gateway
    as it was, whatever its token. *)
Theorem connect_disconnect_roundtrip g socketId hs client :
  registry_inv g →
  server_sockets g !! socketId = None →
  server_sockets (connect socketId hs g) !! socketId = Some client →
  disconnect client (connect socketId hs g) = g.
Proof.
  intros [Hk He] Hfresh.
  assert (∀ u ids, userSockets g !! u = Some ids → ids ≠ [] ∧ socketId ∉ ids)
    as Hreg.
  { intros u ids Hu. destruct (He u ids Hu) as (Hne & _ & Hl).
    split; [done|]. intros Hin. destruct (Hl _ Hin) as (s & Hs & _). congruence. }
  unfold connect, handleConnection.
  destruct (str_truthy _).
  2:{ simpl. rewrite lookup_insert_eq. intros [= <-].
      apply gateway_eq; simpl; [done..|]. by apply delete_insert_id. }
  destruct (jwt_verify _) as [payload|].
  2:{ simpl. rewrite lookup_insert_eq. intros [= <-].
      apply gateway_eq; simpl; [done..|]. by apply delete_insert_id. }
  simpl. destruct (userIdOf payload) as [u|] eqn:Hp; simpl;
    rewrite lookup_insert_eq; intros [= <-];
    unfold disconnect, handleDisconnect; simpl; rewrite Hp;
    apply gateway_eq; simpl; try done.
  - apply unregister_register. apply Hreg.
  - rewrite insert_insert_eq. by apply delete_insert_id.
  - rewrite insert_insert_eq. by apply delete_insert_id.
Qed.


(** The loop deletes only ids of sockets that are gone. *)
Lemma deliverLoop_keeps_live socks roomName multi event d candidates c :
  ∀ socketIds delivered out,
    c ∈ socketIds → is_Some (socks !! c) →
    c ∈ (deliverLoop socks roomName multi event d candidates socketIds
           delivered out).1.1.
Proof.
  intros ids del out Hin Hlive. revert ids del out Hin.
  induction candidates as [|x rest IH]; intros ids del out Hin; simpl; [done|].
  destruct (socks !! x) as [sk|] eqn:Hx.
  - destruct (match roomName with Some r => _ | None => _ end); [by apply IH|].
    destruct multi; [by apply IH | done].
  - apply IH. apply set_delete_elem. split; [|done].
    intros ->. rewrite Hx in Hlive. by destruct Hlive.
Qed.

(** When every candidate is live, the Set is left as it is. *)
Lemma deliverLoop_all_live socks roomName multi event d candidates :
  (∀ c, c ∈ candidates → is_Some (socks !! c)) →
  ∀ socketIds delivered out,
    (deliverLoop socks roomName multi event d candidates socketIds
       delivered out).1.1 = socketIds.
Proof.
  induction candidates as [|x rest IH]; intros Hlive ids del out; simpl; [done|].
  destruct (Hlive x) as [sk ->]; [by left|].
  assert (∀ c, c ∈ rest → is_Some (socks !! c)) as Hrest.
  { intros c Hc. apply Hlive. by right. }
  destruct (match roomName with Some r => _ | None => _ end); [by apply IH|].
  destruct multi; [by apply IH | done].
Qed.

Lemma sendToUser_inv_id g userId event d options :
  registry_inv g → (sendToUser userId event d options g).1.2 = g.
Proof.
  intros [_ He].
  unfold sendToUser. destruct userId as [| |u|o]; try done. simpl.
  destruct (userSockets g !! u) as [ids|] eqn:Hu; [|done].
  case_bool_decide; [|done].
  destruct (He u ids Hu) as (Hne & _ & Hl).
  assert (∀ c, c ∈ reverse ids → is_Some (server_sockets g !! c)) as Hlive.
  { intros c Hc. rewrite elem_of_reverse in Hc.
    destruct (Hl c Hc) as (s & -> & _). eauto. }
  pose proof (deliverLoop_all_live (server_sockets g) (roomNameOf options)
    (multiOf options) event d (reverse ids) Hlive ids false []) as Hsame.
  destruct (deliverLoop _ _ _ _ _ _ _ _ _) as [[ids' del] out]. simpl in *.
  subst ids'. rewrite decide_False by (by destruct ids).
  apply gateway_eq; simpl; [by apply insert_id | done | done].
Qed.

Lemma onSendText_inv_cache_only now client body g :
  registry_inv g →
  ∃ recent', gateway (onSendText now client body g) = with_recentSignals g recent'.
Proof.
  intros Hinv. unfold onSendText.
  destruct (sock_user client) as [user|];
    [|exists (recentSignals g); by rewrite with_recentSignals_id].
  destruct (is_webrtc_signal _).
  - destruct (normalizeSignalType _) as [st|];
      [|exists (recentSignals g); by rewrite with_recentSignals_id].
    destruct (isDuplicateSignal _ _ _ _) as [[] recent']; simpl;
      [by exists recent'|].
    destruct (truthy _); [|by exists recent'].
    pose proof (sendToUser_inv_id (with_recentSignals g recent')
      (targetId body) "newMessage" (DataBody body)
      (Some (signalOptions st body)) (registry_inv_recent g recent' Hinv)) as H.
    destruct (sendToUser _ _ _ _ _) as [[sent g2] out]. simpl in *. subst g2.
    by exists recent'.
  - exists (recentSignals g). rewrite with_recentSignals_id.
    by destruct (messageService_sendText _ _).
Qed.

(** X2: in a reachable state a targeted delivery changes nothing in the
    gateway, since every registered socket is live and the pruning of stale
    socket ids in [sendToUser] finds nothing to remove; [onSendText] then
    changes the dedup cache only. *)
Theorem delivery_keeps_registry g :
  reachable g →
  (∀ userId event d options,
     (sendMessageToUser userId event d options g).1.2 = g)
  ∧ (∀ now client body,
       userSockets (gateway (onSendText now client body g)) = userSockets g
       ∧ server_sockets (gateway (onSendText now client body g))
         = server_sockets g).
Proof.
  intros Hr. pose proof (registry_inv_reachable g Hr) as Hinv. split.
  - intros. by apply sendToUser_inv_id.
  - intros now client body.
    by destruct (onSendText_inv_cache_only now client body g Hinv) as [r ->].
Qed.

Lemma registry_complete_step clock g g' :
  registry_inv g → registry_complete g → step clock g g' → registry_complete g'.
Proof.
  intros Hinv Hc Hstep. pose proof Hinv as [Hk He].
  destruct Hstep as [id hs g Hf|id cl g Hcl|id cl room g Hcl|id cl room g Hcl
                    |now id cl body g _ Hcl|id cl body g Hcl|userId ev d o g
                    |room m g].
  - (* connect *)
    assert (∀ c s u, c ≠ id → server_sockets g !! c = Some s →
              sock_user s ≫= userIdOf = Some u → c ∈ connectionsFor u g) as Hold.
    { intros c s u _. apply Hc. }
    unfold connect, handleConnection.
    destruct (str_truthy _).
    2:{ intros c s u. simpl. rewrite lookup_insert. case_decide as Heq.
        - by intros [= <-].
        - by apply Hold. }
    destruct (jwt_verify _) as [payload|].
    2:{ intros c s u. simpl. rewrite lookup_insert. case_decide as Heq.
        - by intros [= <-].
        - by apply Hold. }
    simpl. destruct (userIdOf payload) as [u0|] eqn:Hp.
    + intros c s u. unfold connectionsFor. simpl. rewrite insert_insert_eq.
      rewrite lookup_insert. case_decide as Heq.
      * intros [= <-]. simpl. rewrite Hp. intros [= <-].
        unfold register. rewrite lookup_insert_eq. simpl.
        apply set_add_elem. by left.
      * intros Hs Hu. pose proof (Hold c s u ltac:(done) Hs Hu) as Hin.
        unfold register. rewrite lookup_insert. case_decide as Hu0; [|done].
        subst u0. simpl. apply set_add_elem. by right.
    + intros c s u. simpl. rewrite insert_insert_eq, lookup_insert.
      case_decide as Heq.
      * intros [= <-]. simpl. by rewrite Hp.
      * by apply Hold.
  - (* disconnect *)
    pose proof (Hk _ _ Hcl) as Hid.
    intros c s u. unfold disconnect, handleDisconnect. rewrite Hid.
    assert (∀ m, server_sockets (with_userSockets
              (with_sockets g (delete id (server_sockets g))) m) !! c = Some s →
            c ≠ id ∧ server_sockets g !! c = Some s) as Htab.
    { intros m. simpl. rewrite lookup_delete. by case_decide. }
    destruct (sock_user cl) as [user|] eqn:Huser; simpl.
    2:{ rewrite lookup_delete. case_decide; [done|]. apply Hc. }
    destruct (userIdOf user) as [u0|] eqn:Hu0; simpl.
    2:{ rewrite lookup_delete. case_decide; [done|]. apply Hc. }
    rewrite lookup_delete. case_decide as Hne; [done|]. intros Hs Hu.
    pose proof (Hc c s u Hs Hu) as Hin. revert Hin.
    unfold connectionsFor, unregister. simpl.
    destruct (decide (u = u0)) as [->|Hneq].
    + destruct (userSockets g !! u0) as [ids|] eqn:Hl; simpl;
        [|by intros ?%not_elem_of_nil].
      intros Hin.
      assert (c ∈ set_delete id ids) as Hin'.
      { apply set_delete_elem. split; [congruence | done]. }
      destruct (decide (length (set_delete id ids) = 0%nat)) as [Hlen|Hlen].
      * destruct (set_delete id ids); [by apply not_elem_of_nil in Hin' | done].
      * by rewrite lookup_insert_eq.
    + destruct (userSockets g !! u0) as [ids|] eqn:Hl; [|done].
      destruct (decide (length (set_delete id ids) = 0%nat)).
      * by rewrite lookup_delete_ne.
      * by rewrite lookup_insert_ne.
  - (* joinRoom *)
    unfold onJoinRoom. destruct (sock_user cl) eqn:Hu; [|done].
    intros c s u. unfold connectionsFor. simpl.
    rewrite (Hk _ _ Hcl), lookup_insert. case_decide as Heq; [|apply Hc].
    intros [= <-]. simpl. subst c. intros Hsu. by apply (Hc id cl u).
  - (* leaveRoom *)
    intros c s u. unfold connectionsFor, onLeaveRoom. simpl.
    rewrite (Hk _ _ Hcl), lookup_insert. case_decide as Heq; [|apply Hc].
    intros [= <-]. simpl. subst c. intros Hsu. by apply (Hc id cl u).
  - (* sendText *)
    by destruct (onSendText_inv_cache_only now cl body g Hinv) as [r ->].
  - unfold onSignal. destruct (sock_user cl); [|done].
    by destruct (messageService_sendSignal _ _).
  - unfold sendMessageToUser. by rewrite sendToUser_inv_id.
  - done.
Qed.

Lemma registry_complete_reachable g : reachable g → registry_complete g.
Proof.
  intros Hr.
  cut (registry_inv g ∧ registry_complete g); [by intros [_ ?]|].
  revert g Hr. apply (rtc_ind_r (λ g, registry_inv g ∧ registry_complete g)).
  - split; [apply registry_inv_initial|]. intros c s u. simpl.
    by rewrite lookup_empty.
  - intros g g' _ Hstep [Hinv Hc]. split.
    + by eapply registry_inv_step.
    + by eapply registry_complete_step.
Qed.

Lemma isUserOnline_connections (u : string) g :
  isUserOnline u g = true ↔ connectionsFor u g ≠ [].
Proof.
  unfold isUserOnline, connectionsFor.
  destruct (userSockets g !! u) as [[|c ids]|]; simpl; split; done.
Qed.

(** X3: in every reachable state the registry is exactly the live sockets
    whose token named a user: a socket id is among the connections of [u]
    if and only if that socket is in the transport's table and
    authenticated as [u]; and [u] is online if and only if there is such a
    socket. *)
Theorem registry_exact g (u : string) :
  reachable g →
  (∀ c, c ∈ connectionsFor u g
        ↔ ∃ s, server_sockets g !! c = Some s
               ∧ sock_user s ≫= userIdOf = Some u)
  ∧ (isUserOnline u g = true
     ↔ ∃ c s, server_sockets g !! c = Some s
              ∧ sock_user s ≫= userIdOf = Some u).
Proof.
  intros Hr. pose proof (registry_inv_reachable g Hr) as [_ He].
  pose proof (registry_complete_reachable g Hr) as Hc.
  assert (∀ c, c ∈ connectionsFor u g
               ↔ ∃ s, server_sockets g !! c = Some s
                      ∧ sock_user s ≫= userIdOf = Some u) as Hiff.
  { intros c. split.
    - unfold connectionsFor.
      destruct (userSockets g !! u) as [ids|] eqn:Hu; simpl.
      + intros Hin. by apply (He u ids Hu).
      + by intros ?%not_elem_of_nil.
    - intros (s & Hs & Hsu). by eapply Hc. }
  split; [exact Hiff|]. rewrite isUserOnline_connections. split.
  - intros Hne. destruct (connectionsFor u g) as [|c l] eqn:Hl; [done|].
    destruct (Hiff c) as [Hto _]. destruct Hto as (s & ? & ?); [by left|].
    eauto.
  - intros (c & s & Hs & Hsu) Hnil.
    assert (c ∈ connectionsFor u g) as Hin by (apply Hiff; eauto).
    rewrite Hnil in Hin. by apply not_elem_of_nil in Hin.
Qed.

(** X4: in every reachable state [getConnectedUsersCount] is the number of
    users that [isUserOnline] reports online. *)
Theorem connected_users_count g :
  reachable g →
  ∃ online : gset string,
    (∀ u : string, u ∈ online ↔ isUserOnline u g = true)
    ∧ getConnectedUsersCount g = size online.
Proof.
  intros Hr. pose proof (registry_inv_reachable g Hr) as [_ He].
  exists (dom (userSockets g)). split.
  - intros u. rewrite elem_of_dom, isUserOnline_connections.
    unfold connectionsFor. destruct (userSockets g !! u) as [ids|] eqn:Hu; simpl.
    + split; [intros _; by apply (He u ids Hu) | eauto].
    + split; [by intros [? [=]] | done].
  - unfold getConnectedUsersCount. by rewrite size_dom.
Qed.

(** ** What [sendToUser] emits and what it prunes *)

Lemma chosen_sublist multi (l : list string) : chosen multi l `sublist_of` l.
Proof. destruct multi; simpl; [done | apply sublist_take]. Qed.

Lemma chosen_nonempty multi (l : list string) : l ≠ [] → chosen multi l ≠ [].
Proof. destruct l, multi; done. Qed.

Lemma nonempty_true {A} (l : list A) : nonempty l = true ↔ l ≠ [].
Proof. by destruct l. Qed.

(** X5: [sendToUser] reports [true] exactly when it emitted; it only emits
    the given event, to sockets that are registered for that user, live,
    and members of the room when a room is given; it emits to no socket
    twice, and to at most one when [multi] is off. *)
Theorem sendToUser_emits_safely g userId event d options :
  let r := sendToUser userId event d options g in
  let ids := default [] (registryGet userId (userSockets g)) in
  (r.1.1 = true ↔ r.2 ≠ [])
  ∧ (∀ e, e ∈ r.2 →
       ∃ c s, e = SocketEmit c event d
              ∧ c ∈ ids
              ∧ server_sockets g !! c = Some s
              ∧ ∀ roomName, roomNameOf options = Some roomName →
                            roomName ∈ sock_rooms s)
  ∧ (multiOf options = false → (length r.2 ≤ 1)%nat)
  ∧ (NoDup ids → NoDup r.2).
Proof.
  intros r ids. subst r ids.
  destruct (registryGet userId (userSockets g)) as [l|] eqn:Hg.
  2:{ rewrite sendToUser_absent by done. simpl.
      split_and!; [by split | by intros e ?%not_elem_of_nil | intros; lia
                  | intros _; constructor]. }
  destruct userId as [| |u|o]; try done. simpl in Hg.
  destruct (sendToUser_present u l event d options g Hg) as (Hs & Ho & _).
  rewrite Hs, Ho. simpl. split_and!.
  - rewrite nonempty_true. split.
    + intros Hne Hnil. apply fmap_nil_inv in Hnil.
      by apply (chosen_nonempty (multiOf options)) in Hne.
    + intros Hne Hnil. apply Hne. rewrite Hnil. by destruct (multiOf options).
  - intros e (c & -> & Hc)%list_elem_of_fmap.
    pose proof (elem_of_sublist _ _ _ Hc (chosen_sublist _ _)) as Hc'.
    apply candidatesOf_elem in Hc' as [Hin Hel]. revert Hel. unfold eligible.
    destruct (server_sockets g !! c) as [s|] eqn:Hsk; [|done]. intros Hel.
    exists c, s. split_and!; [done..|].
    intros rn Hrn. rewrite Hrn in Hel. by apply bool_decide_eq_true in Hel.
  - intros ->. simpl. rewrite length_fmap, length_take. lia.
  - intros Hnd.
    assert (Inj (=) (=) (emitTo (Msg := Msg) (SigMsg := SigMsg) event d))
      by (by intros ?? [=]).
    apply NoDup_fmap_2; [done|].
    apply (sublist_NoDup _ (candidatesOf g options l));
      [|apply chosen_sublist].
    unfold candidatesOf. apply NoDup_ListNoDup, List.NoDup_filter.
    apply NoDup_ListNoDup. by rewrite reverse_Permutation.
Qed.

(** X6: the exported [sendMessageToUser] without options fans out: it
    emits to every live registered socket of the user, newest first, and
    reports [false] exactly when there is none. *)
Theorem sendMessageToUser_default g (u : string) ids event d :
  userSockets g !! u = Some ids →
  let r := sendMessageToUser (VStr u) event d None g in
  r.2 = emitTo event d <$> candidatesOf g None ids
  ∧ (∀ c, c ∈ candidatesOf g None ids ↔ c ∈ ids ∧ live g c)
  ∧ ((∀ c, c ∈ ids → live g c) → r.2 = emitTo event d <$> reverse ids)
  ∧ (r.1.1 = false ↔ ∀ c, c ∈ ids → ¬ live g c).
Proof.
  intros Hu r. subst r. unfold sendMessageToUser.
  destruct (sendToUser_present u ids event d None g Hu) as (Hs & Ho & _).
  assert (∀ c, c ∈ candidatesOf g None ids ↔ c ∈ ids ∧ live g c) as Hel.
  { intros c. rewrite candidatesOf_elem. unfold eligible, live. simpl.
    destruct (server_sockets g !! c) as [s|]; split.
    - intros [? _]. split; [done | by eexists].
    - by intros [? _].
    - by intros [_ ?].
    - by intros [_ [? ?]]. }
  rewrite Hs, Ho. simpl. split_and!; [done | done | |].
  - intros Hlive. by rewrite candidatesOf_all_live.
  - split.
    + intros Hn c Hc Hl.
      assert (c ∈ candidatesOf g None ids) as Hin by by apply Hel.
      destruct (candidatesOf g None ids); [by apply not_elem_of_nil in Hin|done].
    + intros Hnone. destruct (candidatesOf g None ids) as [|c l] eqn:Hl; [done|].
      exfalso. destruct (Hel c) as [[Hin Hlv] _]; [by left|].
      by apply (Hnone c).
Qed.

Lemma deliverLoop_pruned socks roomName multi event d candidates :
  ∀ socketIds delivered out,
    multi = true ∨ List.filter (eligible socks roomName) candidates = [] →
    ∀ c, c ∈ (deliverLoop socks roomName multi event d candidates socketIds
                delivered out).1.1
         ↔ c ∈ socketIds ∧ (c ∈ candidates → is_Some (socks !! c)).
Proof.
  induction candidates as [|x rest IH]; intros ids del out Hfull c; simpl.
  - split; [intros ?; split; [done|by intros ?%not_elem_of_nil] | by intros [? _]].
  - simpl in Hfull. unfold eligible at 1 in Hfull.
    destruct (socks !! x) as [sk|] eqn:Hx.
    + assert ((c ∈ x :: rest → is_Some (socks !! c))
              ↔ (c ∈ rest → is_Some (socks !! c))) as Hiff.
      { split; intros H Hc.
        - apply H. by right.
        - apply elem_of_cons in Hc as [->|Hc]; [by rewrite Hx | by apply H]. }
      rewrite Hiff.
      destruct roomName as [r|].
      * destruct (decide (r ∈ sock_rooms sk)) as [Hin|Hin].
        -- rewrite (bool_decide_eq_true_2 _ Hin) in Hfull.
           rewrite (bool_decide_eq_false_2 (r ∉ sock_rooms sk)) by tauto.
           destruct Hfull as [->|?]; [|done]. by apply IH; left.
        -- rewrite (bool_decide_eq_false_2 _ Hin) in Hfull.
           rewrite (bool_decide_eq_true_2 (r ∉ sock_rooms sk)) by done.
           by apply IH.
      * destruct Hfull as [->|?]; [|done]. by apply IH; left.
    + rewrite IH by done. rewrite set_delete_elem. split.
      * intros [[Hne Hin] Hl]. split; [done|].
        intros Hc. apply elem_of_cons in Hc as [->|Hc]; [done | by apply Hl].
      * intros [Hin Hl]. split; [split; [|done] | intros Hc; apply Hl; by right].
        intros ->. destruct (Hl ltac:(by left)) as [? Hs]. congruence.
Qed.

(** X7: when [sendToUser] walks all candidates (it fans out, or it
    delivered nothing), it removes from the user's Set exactly the ids of
    sockets that are gone, drops the entry when none is left, and leaves
    all other entries alone. *)
Theorem sendToUser_prunes g (u : string) ids event d options :
  userSockets g !! u = Some ids →
  ids ≠ [] →
  let r := sendToUser (VStr u) event d options g in
  multiOf options = true ∨ r.1.1 = false →
  (∀ c, c ∈ connectionsFor u r.1.2 ↔ c ∈ ids ∧ live g c)
  ∧ (userSockets r.1.2 !! u = None ↔ ∀ c, c ∈ ids → ¬ live g c)
  ∧ (∀ v : string, v ≠ u → userSockets r.1.2 !! v = userSockets g !! v).
Proof.
  intros Hu Hne r Hfull.
  assert (multiOf options = true
          ∨ List.filter (eligible (server_sockets g) (roomNameOf options))
              (reverse ids) = []) as Hfull'.
  { destruct Hfull as [?|Hf]; [by left|right]. subst r.
    destruct (sendToUser_present u ids event d options g Hu) as (Hs & _).
    rewrite Hs in Hf. unfold candidatesOf in Hf.
    by destruct (List.filter _ _). }
  clear Hfull. subst r. unfold sendToUser. simpl. rewrite Hu.
  rewrite bool_decide_eq_true_2 by (destruct ids; [done | simpl; lia]).
  pose proof (deliverLoop_pruned (server_sockets g) (roomNameOf options)
    (multiOf options) event d (reverse ids) ids false [] Hfull') as Hp.
  destruct (deliverLoop _ _ _ _ _ _ _ _ _) as [[ids' del] out]. simpl in *.
  assert (∀ c, c ∈ ids' ↔ c ∈ ids ∧ live g c) as Hp'.
  { intros c. rewrite Hp, elem_of_reverse. unfold live.
    split; intros [Hin Hl]; (split; [done|]); [by apply Hl | by intros _]. }
  unfold connectionsFor.
  destruct (decide (length ids' = 0%nat)) as [Hlen|Hlen]; simpl.
  - assert (ids' = []) as -> by by destruct ids'.
    rewrite lookup_delete_eq. simpl. split_and!.
    + intros c. rewrite <- Hp'. done.
    + split; [|done]. intros _ c Hc Hl.
      assert (c ∈ []) as Hin by by apply Hp'. by apply not_elem_of_nil in Hin.
    + intros v Hv. by rewrite lookup_delete_ne.
  - rewrite lookup_insert_eq. simpl. split_and!; [done| |].
    + split; [done|]. intros Hnone. exfalso.
      destruct ids' as [|c l]; [done|].
      destruct (Hp' c) as [[Hin Hl] _]; [by left|]. by apply (Hnone c).
    + intros v Hv. by rewrite lookup_insert_ne.
Qed.

(** X8: the newest session wins: right after a socket connected with a
    token that names user [u], its id is the last of the connections of
    [u], [u] is online, and a delivery to [u] with [multi] off and no room
    goes to that socket only. *)
Theorem newest_session_wins g socketId hs token payload (u : string) event d :
  registry_inv g →
  server_sockets g !! socketId = None →
  or_else (auth_token hs) (query_token hs) = Some token →
  token ≠ "" →
  jwt_verify token = Some payload →
  userIdOf payload = Some u →
  let g' := connect socketId hs g in
  connectionsFor u g' = connectionsFor u g ++ [socketId]
  ∧ isUserOnline u g' = true
  ∧ (sendMessageToUser (VStr u) event d
       (Some {| opt_roomId := VUndefined; opt_multi := Some false |}) g').2
    = [SocketEmit socketId event d].
Proof.
  intros [Hk He] Hfresh Htok Hne Hv Hp g'.
  assert (g' = with_userSockets
            (with_sockets g (<[socketId :=
               set_user (new_socket socketId) (Some payload)]> (server_sockets g)))
            (register u socketId (userSockets g))) as Hg'.
  { subst g'. unfold connect, handleConnection. rewrite Htok. simpl.
    assert (negb (token =? "")%string = true) as ->.
    { apply negb_true_iff, String.eqb_neq. done. }
    rewrite Hv. simpl. rewrite Hp. simpl. by rewrite insert_insert_eq. }
  assert (socketId ∉ default [] (userSockets g !! u)) as Hnotin.
  { destruct (userSockets g !! u) as [ids|] eqn:Hu; simpl;
      [|apply not_elem_of_nil].
    intros Hin. destruct (He u ids Hu) as (_ & _ & Hl).
    destruct (Hl _ Hin) as (s & Hs & _). congruence. }
  assert (connectionsFor u g' = connectionsFor u g ++ [socketId]) as Hconn.
  { rewrite Hg'. unfold connectionsFor, register. simpl.
    rewrite lookup_insert_eq. simpl. by apply set_add_fresh. }
  split; [done|]. split.
  - apply isUserOnline_connections. rewrite Hconn. by destruct (connectionsFor u g).
  - unfold sendMessageToUser.
    assert (userSockets g' !! u = Some (connectionsFor u g ++ [socketId])) as Hu.
    { rewrite Hg'. unfold register. simpl. rewrite lookup_insert_eq.
      f_equal. by apply set_add_fresh. }
    destruct (sendToUser_present u _ event d
      (Some {| opt_roomId := VUndefined; opt_multi := Some false |}) g' Hu)
      as (_ & -> & _).
    unfold candidatesOf. rewrite reverse_snoc. simpl.
    unfold eligible at 1. rewrite Hg'. simpl. rewrite lookup_insert_eq. done.
Qed.

(** ** Rooms and presence *)

Lemma members_elem (r : string) (socks : gmap string Socket) c :
  c ∈ members r socks ↔ ∃ s, socks !! c = Some s ∧ r ∈ sock_rooms s.
Proof.
  unfold members. rewrite elem_of_dom. unfold is_Some.
  setoid_rewrite map_lookup_filter_Some. simpl. done.
Qed.

Lemma members_put (r k : string) (socks : gmap string Socket) s' :
  members r (<[k := s']> socks)
  = if decide (r ∈ sock_rooms s') then {[k]} ∪ members r socks
    else members r socks ∖ {[k]}.
Proof.
  apply set_eq. intros c. destruct (decide (r ∈ sock_rooms s')) as [Hin|Hin].
  - rewrite elem_of_union, elem_of_singleton, !members_elem.
    setoid_rewrite lookup_insert. split.
    + intros (s & Hs & Hr). case_decide as Hk; [by left | right; eauto].
    + intros [->|(s & Hs & Hr)].
      * exists s'. by rewrite decide_True.
      * case_decide as Hk; [by exists s' | by exists s].
  - rewrite elem_of_difference, elem_of_singleton, !members_elem.
    setoid_rewrite lookup_insert. split.
    + intros (s & Hs & Hr). case_decide as Hk.
      * by injection Hs as <-.
      * split; [eauto | done].
    + intros [(s & Hs & Hr) Hne]. exists s. by rewrite decide_False.
Qed.

(** X9: [onJoinRoom] of an authenticated client puts the socket into the
    room and no other, and its [joined] presence event reaches every member
    of the room, the joiner included; [onLeaveRoom] takes the socket out of
    the room and no other, and its [left] presence event reaches the
    remaining members but not the socket that left. *)
Theorem presence_reaches_room g socketId client room :
  server_sockets g !! socketId = Some client →
  sock_id client = socketId →
  let joined : @Outcome Other Msg SigMsg := onJoinRoom client room g in
  let left : @Outcome Other Msg SigMsg := onLeaveRoom client room g in
  let before := members (roomOf room) (server_sockets g) in
  (sock_user client ≠ None →
     members (roomOf room) (server_sockets (gateway joined))
     = {[socketId]} ∪ before
     ∧ (∀ r, r ≠ roomOf room →
          members r (server_sockets (gateway joined))
          = members r (server_sockets g))
     ∧ (∀ e, e ∈ effects joined →
          recipients (server_sockets (gateway joined)) e
          = {[socketId]} ∪ before))
  ∧ members (roomOf room) (server_sockets (gateway left)) = before ∖ {[socketId]}
  ∧ (∀ r, r ≠ roomOf room →
       members r (server_sockets (gateway left)) = members r (server_sockets g))
  ∧ (∀ e, e ∈ effects left →
       recipients (server_sockets (gateway left)) e = before ∖ {[socketId]}).
Proof.
  intros Hc Hid joined left before. subst joined left before.
  assert (∀ r, r ∈ sock_rooms client → members r (server_sockets g)
            = {[socketId]} ∪ members r (server_sockets g)) as Hin.
  { intros r Hr. apply set_eq. intros c.
    rewrite elem_of_union, elem_of_singleton, members_elem.
    split; [by right|]. intros [->|?]; [eauto | done]. }
  assert (∀ r, r ∉ sock_rooms client → members r (server_sockets g)
            = members r (server_sockets g) ∖ {[socketId]}) as Hout.
  { intros r Hr. apply set_eq. intros c.
    rewrite elem_of_difference, elem_of_singleton, members_elem.
    split; [|by intros [? _]]. intros (s & Hs & Hrs). split; [eauto|].
    intros ->. congruence. }
  split_and!.
  - intros Hu. unfold onJoinRoom.
    destruct (sock_user client) as [user|]; [|done]. simpl. rewrite Hid.
    assert (members (roomOf room)
              (<[socketId := set_rooms client ({[roomOf room]} ∪ sock_rooms client)]>
                 (server_sockets g))
            = {[socketId]} ∪ members (roomOf room) (server_sockets g)) as Hm.
    { rewrite members_put. simpl. rewrite decide_True; [done|].
      apply elem_of_union. left. by apply elem_of_singleton. }
    split_and!; [done| |].
    + intros r Hr. rewrite members_put. simpl.
      destruct (decide (r ∈ sock_rooms client)) as [Hrc|Hrc].
      * rewrite decide_True by (apply elem_of_union; by right).
        symmetry. by apply Hin.
      * rewrite decide_False; [symmetry; by apply Hout|].
        intros [?%elem_of_singleton|?]%elem_of_union; done.
    + intros e ->%list_elem_of_singleton. simpl. exact Hm.
  - unfold onLeaveRoom. simpl. rewrite Hid, members_put. simpl.
    rewrite decide_False; [done|].
    intros [_ Hn]%elem_of_difference. apply Hn. by apply elem_of_singleton.
  - intros r Hr. unfold onLeaveRoom. simpl. rewrite Hid, members_put. simpl.
    destruct (decide (r ∈ sock_rooms client)) as [Hrc|Hrc].
    + rewrite decide_True; [symmetry; by apply Hin|].
      apply elem_of_difference. split; [done|]. by intros ?%elem_of_singleton.
    + rewrite decide_False; [symmetry; by apply Hout|].
      by intros [? _]%elem_of_difference.
  - intros e ->%list_elem_of_singleton. unfold onLeaveRoom. simpl.
    rewrite Hid, members_put. simpl.
    rewrite decide_False; [done|].
    intros [_ Hn]%elem_of_difference. apply Hn. by apply elem_of_singleton.
Qed.

(** X10: joining a room and leaving it again restores the gateway when the
    socket was not in the room before, and joining twice is the same as
    joining once. *)
Theorem join_leave_roundtrip g socketId client user room :
  server_sockets g !! socketId = Some client →
  sock_id client = socketId →
  sock_user client = Some user →
  let joined : @Outcome Other Msg SigMsg := onJoinRoom client room g in
  ∃ client',
    server_sockets (gateway joined) !! socketId = Some client'
    ∧ gateway (onJoinRoom (Msg := Msg) (SigMsg := SigMsg)
                 client' room (gateway joined)) = gateway joined
    ∧ (roomOf room ∉ sock_rooms client →
       gateway (onLeaveRoom (Msg := Msg) (SigMsg := SigMsg)
                  client' room (gateway joined)) = g).
Proof.
  intros Hc Hid Hu joined. subst joined.
  assert (onJoinRoom (Msg := Msg) (SigMsg := SigMsg) client room g
          = {| reply := ReplyOkRoom room;
               gateway := with_sockets g
                 (<[socketId := set_rooms client
                      ({[roomOf room]} ∪ sock_rooms client)]> (server_sockets g));
               effects := [ServerRoomEmit (roomOf room) "presence"
                             (DataPresence socketId "joined" room)] |}) as ->.
  { unfold onJoinRoom. by rewrite Hu, Hid. }
  simpl. rewrite lookup_insert_eq. eexists. split; [done|]. split.
  - unfold onJoinRoom. simpl. rewrite Hu, Hid. simpl.
    apply gateway_eq; simpl; [done..|]. rewrite insert_insert_eq.
    f_equal. unfold set_rooms. simpl. f_equal.
    apply set_eq. intros r. rewrite !elem_of_union. tauto.
  - intros Hnot. unfold onLeaveRoom. simpl. rewrite Hid.
    apply gateway_eq; simpl; [done..|]. rewrite insert_insert_eq.
    apply insert_id. rewrite Hc. f_equal. destruct client as [i us rs].
    simpl in *. unfold set_rooms. simpl. f_equal.
    apply set_eq. intros r.
    rewrite elem_of_difference, elem_of_union, !elem_of_singleton.
    split; [|intros [[->|?] Hn]; done]. intros Hr. split; [by right|].
    intros ->. done.
Qed.

(** ** The dedup key *)

Lemma append_assoc (a b c : string) : (a +:+ b) +:+ c = a +:+ (b +:+ c).
Proof.
  induction a as [|x a IH]; [done|].
  change (String x ((a +:+ b) +:+ c) = String x (a +:+ (b +:+ c))).
  by rewrite IH.
Qed.

Lemma bar_split (a1 a2 r1 r2 : string) :
  bar_free a1 = true → bar_free a2 = true →
  a1 +:+ "|" +:+ r1 = a2 +:+ "|" +:+ r2 →
  a1 = a2 ∧ r1 = r2.
Proof.
  revert a2. induction a1 as [|x a1 IH]; intros [|y a2] H1 H2 Heq.
  - change (String "|" r1 = String "|" r2) in Heq. by injection Heq as ->.
  - change (String "|" r1 = String y (a2 +:+ "|" +:+ r2)) in Heq.
    exfalso. injection Heq as <- _. simpl in H2. done.
  - change (String x (a1 +:+ "|" +:+ r1) = String "|" r2) in Heq.
    exfalso. injection Heq as -> _. simpl in H1. done.
  - change (String x (a1 +:+ "|" +:+ r1) = String y (a2 +:+ "|" +:+ r2)) in Heq.
    injection Heq as -> Heq. simpl in H1, H2.
    apply andb_true_iff in H1 as [_ H1]. apply andb_true_iff in H2 as [_ H2].
    destruct (IH a2 H1 H2 Heq) as [-> ->]. done.
Qed.

(** X11: when the signal type and the sender, target and room ids contain
    no [|], the dedup key determines them and the payload prefix: signals
    that differ in one of these never share a cache entry. *)
Theorem dedupKey_injective st1 st2 b1 b2 :
  bar_free st1 = true → bar_free st2 = true →
  bar_free (toStr (senderId b1)) = true →
  bar_free (toStr (senderId b2)) = true →
  bar_free (toStr (targetId b1)) = true →
  bar_free (toStr (targetId b2)) = true →
  bar_free (toStr (roomId b1)) = true →
  bar_free (toStr (roomId b2)) = true →
  dedupKey st1 b1 = dedupKey st2 b2 →
  st1 = st2
  ∧ toStr (senderId b1) = toStr (senderId b2)
  ∧ toStr (targetId b1) = toStr (targetId b2)
  ∧ toStr (roomId b1) = toStr (roomId b2)
  ∧ payloadHashOf b1 = payloadHashOf b2.
Proof.
  intros Ht1 Ht2 Hs1 Hs2 Hg1 Hg2 Hr1 Hr2. unfold dedupKey. intros Hk.
  apply bar_split in Hk as [-> Hk]; [|done..].
  apply bar_split in Hk as [-> Hk]; [|done..].
  apply bar_split in Hk as [-> Hk]; [|done..].
  apply bar_split in Hk as [-> Hk]; [|done..]. done.
Qed.

(** X12: the fields of the dedup key are joined without escaping: a signal
    from [s|t] to [u] and one from [s] to [t|u], equal otherwise, have one
    key, and the dedup check cannot tell them apart. *)
Theorem dedupKey_collision st (s t u : string) (m y r p c : @JsVal Other) :
  let b1 := {| messageType := m; signalType := y;
               senderId := VStr (s +:+ "|" +:+ t); targetId := VStr u;
               roomId := r; data := p; content := c |} in
  let b2 := {| messageType := m; signalType := y;
               senderId := VStr s; targetId := VStr (t +:+ "|" +:+ u);
               roomId := r; data := p; content := c |} in
  dedupKey st b1 = dedupKey st b2
  ∧ ∀ now recent,
      isDuplicateSignal now st b1 recent = isDuplicateSignal now st b2 recent.
Proof.
  intros b1 b2.
  assert (dedupKey st b1 = dedupKey st b2) as Hk.
  { unfold dedupKey, payloadHashOf. subst b1 b2. simpl.
    f_equal. by rewrite !append_assoc. }
  split; [done|]. intros now recent. unfold isDuplicateSignal. by rewrite Hk.
Qed.

(** ** The dedup cache over a run *)



(** ** The new gateway against the earlier one *)

(** X14: the gateway answers and emits as the earlier one did, which
    relayed every signal to the room, on every message of an
    unauthenticated client, on every chat message, and on every signal that
    is not a duplicate and has no target or no connection of the target to
    deliver to; in all these cases but the last the state is unchanged
    too. *)
Theorem legacy_agreement now client body g :
  let new := onSendText now client body g in
  let old := LegacyGateway.onSendText client body g in
  (sock_user client = None → new = old)
  ∧ (is_webrtc_signal (messageType body) = false → new = old)
  ∧ (∀ user st,
       SignalFrom client user body st →
       (isDuplicateSignal now st body (recentSignals g)).1 = false →
       truthy (targetId body) = false
       ∨ candidatesOf g (Some (signalOptions st body))
           (default [] (registryGet (targetId body) (userSockets g))) = [] →
       reply new = reply old ∧ effects new = effects old).
Proof.
  intros new old. subst new old. split_and!.
  - intros Hu. unfold onSendText, LegacyGateway.onSendText. by rewrite Hu.
  - intros Hm. unfold onSendText, LegacyGateway.onSendText. by rewrite Hm.
  - intros user st Hs Hd Hnone. pose proof Hs as (Hu & Hm & Hn).
    rewrite (onSendText_signal_reply _ _ _ _ _ _ Hu Hm Hn), Hd.
    rewrite (onSendText_signal_effects now client user body g st Hu Hm Hn Hd).
    unfold LegacyGateway.onSendText. rewrite Hu, Hm. simpl. split; [done|].
    destruct Hnone as [-> | ->]; [done|]. by rewrite andb_false_r.
Qed.

End GatewayProperties.

(** * Properties of the danger zone check *)

Module DangerZoneProperties.
Import DangerZones.

Section Properties.
Context {Loc Geo : Type} (within : Loc → Geo → bool).

Implicit Types (c : @Child Loc) (zone : @DangerZone Geo) (st : @Store Loc).
Implicit Types (acc : list (@DangerZoneEvent Loc) * @Store Loc).

Lemma checkZone_cases c loc acc zone :
  (pending within c loc acc.2 zone = false ∧ checkZone within c loc acc zone = acc)
  ∨ ∃ t,
      pending within c loc acc.2 zone = true
      ∧ wasInside (lastEvent (child_id c) (zone_id zone) acc.2)
        = bool_decide (t = EXIT)
      ∧ within loc (geo zone) = bool_decide (t = ENTER)
      ∧ checkZone within c loc acc zone
        = (acc.1 ++ [(create (child_id c) (zone_id zone) t loc acc.2).1],
           (create (child_id c) (zone_id zone) t loc acc.2).2).
Proof.
  unfold checkZone, pending.
  destruct (within loc (geo zone)),
           (wasInside (lastEvent (child_id c) (zone_id zone) acc.2)); simpl.
  - by left.
  - destruct (notifyOnEntry zone); [right; by exists ENTER | by left].
  - destruct (notifyOnExit zone); [right; by exists EXIT | by left].
  - by left.
Qed.

Lemma history_create_same (cid z : string) t loc st :
  history cid z (create cid z t loc st).2 = t :: history cid z st.
Proof.
  unfold history, create. simpl. rewrite filter_cons, decide_True; [done|].
  by split.
Qed.

Lemma history_create_other (cid z cid' z' : string) t loc st :
  ¬ (cid' = cid ∧ z' = z) →
  history cid z (create cid' z' t loc st).2 = history cid z st.
Proof.
  intros Hne. unfold history, create. simpl.
  rewrite filter_cons, decide_False; [done|]. intros [? ?]. by apply Hne.
Qed.

Lemma wasInside_history (cid z : string) st :
  wasInside (lastEvent cid z st)
  = match history cid z st with
    | ENTER :: _ => true
    | _ => false
    end.
Proof.
  unfold wasInside, lastEvent, history.
  destruct (filter (about cid z) (events st)) as [|e l]; simpl; [done|].
  by destruct (type e).
Qed.

Lemma alternating_checkZone c loc acc zone (cid z : string) :
  alternating (history cid z acc.2) →
  alternating (history cid z (checkZone within c loc acc zone).2).
Proof.
  intros Halt.
  destruct (checkZone_cases c loc acc zone) as [[_ ->]|(t & _ & Hwas & _ & ->)];
    [done|]. cbn [snd].
  destruct (decide (child_id c = cid ∧ zone_id zone = z)) as [[<- <-]|Hne].
  - rewrite history_create_same. rewrite wasInside_history in Hwas.
    simpl. split; [|done].
    destruct (history (child_id c) (zone_id zone) acc.2) as [|t' h], t;
      try done; destruct t'; done.
  - by rewrite history_create_other.
Qed.

(** X15: the events of a child and a zone alternate: when every history
    starts with an entry and alternates between entry and exit, it still
    does after a check, whatever the zones and the location; marking a
    notification as sent does not change a history. *)
Theorem history_alternates c zones st :
  (∀ cid z : string, alternating (history cid z st)) →
  ∀ cid z : string,
    alternating (history cid z (checkDangerZones within c zones st).2)
    ∧ ∀ eventId,
        history cid z (markNotificationSent eventId st) = history cid z st.
Proof.
  intros Halt cid z. split.
  - unfold checkDangerZones. destruct (location c) as [loc|]; [|apply Halt].
    generalize ([] : list (@DangerZoneEvent Loc)). intros out.
    assert (alternating (history cid z (out, st).2)) as H by apply Halt.
    revert H. generalize (out, st). clear.
    induction zones as [|zone zones IH]; intros acc H; simpl; [done|].
    apply IH. by apply alternating_checkZone.
  - intros eventId. unfold history, markNotificationSent. simpl.
    set (f := λ e : @DangerZoneEvent Loc, if decide (event_id e = eventId) then _ else e).
    assert (∀ e, (about cid z (f e) ↔ about cid z e) ∧ type (f e) = type e)
      as Hf.
    { intros e. unfold f, about. by destruct (decide (event_id e = eventId)). }
    induction (events st) as [|e l IH]; [done|].
    rewrite fmap_cons, !filter_cons. destruct (Hf e) as [Hiff Hty].
    destruct (decide (about cid z (f e))) as [Ha|Ha],
             (decide (about cid z e)) as [Hb|Hb]; try tauto;
      first [exact IH | by rewrite !fmap_cons, IH, Hty].
Qed.

(** X16: a check returns exactly the events it stored: the collection
    grows by the returned events (the newest first) and by nothing else,
    every returned event is about this child and one of the zones, carries
    the child's location and is not yet marked as sent; a child without a
    location gets no event. *)
Theorem checkDangerZones_returns_stored c zones st :
  let r := checkDangerZones within c zones st in
  events r.2 = reverse r.1 ++ events st
  ∧ next_id r.2 = (next_id st + length r.1)%nat
  ∧ (∀ e, e ∈ r.1 →
       child e = child_id c
       ∧ (∃ zone, zone ∈ zones ∧ dangerZone e = zone_id zone)
       ∧ Some (at_location e) = location c
       ∧ notificationSent e = false
       ∧ (next_id st ≤ event_id e < next_id r.2)%nat)
  ∧ (location c = None → r = ([], st)).
Proof.
  intros r. subst r. unfold checkDangerZones.
  destruct (location c) as [loc|] eqn:Hloc.
  2:{ simpl. rewrite Nat.add_0_r.
      split_and!; [done | done | by intros e ?%not_elem_of_nil | done]. }
  cut (∀ acc,
         let r := foldl (checkZone within c loc) acc zones in
         ∃ new,
           r.1 = acc.1 ++ new
           ∧ events r.2 = reverse new ++ events acc.2
           ∧ next_id r.2 = (next_id acc.2 + length new)%nat
           ∧ ∀ e, e ∈ new →
               child e = child_id c
               ∧ (∃ zone, zone ∈ zones ∧ dangerZone e = zone_id zone)
               ∧ at_location e = loc
               ∧ notificationSent e = false
               ∧ (next_id acc.2 ≤ event_id e < next_id r.2)%nat).
  { intros H. destruct (H ([], st)) as (new & H1 & H2 & H3 & H4). simpl in *.
    rewrite H1. split_and!; [done | done | | done].
    intros e He. destruct (H4 e He) as (? & ? & <- & ? & ?). done. }
  induction zones as [|zone zones IH]; intros acc; simpl.
  { exists []. rewrite app_nil_r, Nat.add_0_r.
    split_and!; [done..|]. by intros e ?%not_elem_of_nil. }
  destruct (IH (checkZone within c loc acc zone))
    as (new & H1 & H2 & H3 & H4). simpl in *.
  destruct (checkZone_cases c loc acc zone) as [[_ Heq]|(t & _ & _ & _ & Heq)];
    rewrite Heq in *; simpl in *.
  - exists new. split_and!; [done..|]. intros e He.
    destruct (H4 e He) as (? & (z & ? & ?) & ? & ? & ?).
    split; [done|]. split; [exists z; split; [by right | done]|].
    split; [done|]. split; [done | lia].
  - set (e0 := {| event_id := next_id acc.2; child := child_id c;
                  dangerZone := zone_id zone; type := t; at_location := loc;
                  notificationSent := false |}) in *.
    exists (e0 :: new). split_and!.
    + by rewrite H1, <- app_assoc.
    + by rewrite H2, reverse_cons, <- app_assoc.
    + rewrite H3. simpl. lia.
    + intros e [->|He]%elem_of_cons.
      * simpl. split; [done|]. split; [exists zone; split; [by left | done]|].
        split; [done|]. split; [done | lia].
      * destruct (H4 e He) as (? & (z & ? & ?) & ? & ? & ?).
        split; [done|]. split; [exists z; split; [by right | done]|].
        split; [done|]. split; [done | lia].
Qed.

Lemma lastEvent_create_other (cid z cid' z' : string) t loc st :
  ¬ (cid' = cid ∧ z' = z) →
  lastEvent cid z (create cid' z' t loc st).2 = lastEvent cid z st.
Proof.
  intros Hne. unfold lastEvent, create. simpl.
  rewrite filter_cons, decide_False; [done|]. intros [? ?]. by apply Hne.
Qed.

Lemma pending_other c loc acc zone zone' :
  zone_id zone' ≠ zone_id zone →
  pending within c loc (checkZone within c loc acc zone).2 zone'
  = pending within c loc acc.2 zone'.
Proof.
  intros Hne.
  destruct (checkZone_cases c loc acc zone) as [[_ ->]|(t & _ & _ & _ & ->)];
    [done|]. cbn [snd]. unfold pending.
  rewrite lastEvent_create_other; [done|]. intros [_ ?]. by apply Hne.
Qed.

Lemma pending_settled c loc acc zone :
  pending within c loc (checkZone within c loc acc zone).2 zone = false.
Proof.
  destruct (checkZone_cases c loc acc zone)
    as [[Hp ->]|(t & _ & _ & Hin & ->)]; [done|].
  unfold pending, lastEvent, create. simpl.
  rewrite filter_cons, decide_True by (by split). simpl. rewrite Hin.
  by destruct t.
Qed.

Lemma foldl_checkZone_not_pending c loc zones :
  ∀ acc,
    (∀ zone, zone ∈ zones → pending within c loc acc.2 zone = false) →
    foldl (checkZone within c loc) acc zones = acc.
Proof.
  induction zones as [|zone zones IH]; intros acc Hnone; simpl; [done|].
  destruct (checkZone_cases c loc acc zone) as [[_ ->]|(t & Hp & _)].
  - apply IH. intros z Hz. apply Hnone. by right.
  - rewrite Hnone in Hp by left. done.
Qed.

Lemma foldl_checkZone_settles c loc zones :
  NoDup (zone_id <$> zones) →
  ∀ acc zone,
    zone ∈ zones →
    pending within c loc (foldl (checkZone within c loc) acc zones).2 zone
    = false.
Proof.
  induction zones as [|z zones IH]; intros Hnd acc zone Hin;
    [by apply not_elem_of_nil in Hin|].
  rewrite fmap_cons in Hnd. apply NoDup_cons in Hnd as [Hz Hnd]. simpl.
  apply elem_of_cons in Hin as [->|Hin]; [|by apply IH].
  assert (∀ acc', pending within c loc acc'.2 z = false →
            pending within c loc (foldl (checkZone within c loc) acc' zones).2 z
            = false) as Hkeep.
  { clear IH Hnd. revert Hz.
    induction zones as [|z' zones IH']; intros Hz acc' Hp; simpl; [done|].
    apply IH'.
    - intros Hin. apply Hz. rewrite fmap_cons. by right.
    - rewrite pending_other; [done|]. intros Heq. apply Hz.
      rewrite fmap_cons, <- Heq. by left. }
  apply Hkeep. apply pending_settled.
Qed.

(** X17: a check is idempotent: when the zones have different ids, a
    second check of the same child at the same location finds nothing to
    report and stores nothing. *)
Theorem check_twice c zones st :
  NoDup (zone_id <$> zones) →
  let first := checkDangerZones within c zones st in
  checkDangerZones within c zones first.2 = ([], first.2).
Proof.
  intros Hnd first. subst first. unfold checkDangerZones.
  destruct (location c) as [loc|]; [|done].
  apply foldl_checkZone_not_pending. intros zone Hin. simpl.
  by apply foldl_checkZone_settles.
Qed.

(** X18: a zone with entry notifications off is silent: as long as the
    last event about the child and the zone is not an entry, a check
    records no event about them and leaves that so, whatever the location
    and also when exit notifications are on; so no exit is ever reported
    for it. *)
Theorem entry_off_never_reports c zones st (z : string) :
  (∀ zone, zone ∈ zones → zone_id zone = z → notifyOnEntry zone = false) →
  wasInside (lastEvent (child_id c) z st) = false →
  let r := checkDangerZones within c zones st in
  wasInside (lastEvent (child_id c) z r.2) = false
  ∧ history (child_id c) z r.2 = history (child_id c) z st
  ∧ ∀ e, e ∈ r.1 → dangerZone e ≠ z.
Proof.
  intros Hoff Hwas r. subst r. unfold checkDangerZones.
  destruct (location c) as [loc|];
    [|split_and!; [done | done | by intros e ?%not_elem_of_nil]].
  cut (∀ acc,
         wasInside (lastEvent (child_id c) z acc.2) = false →
         (∀ e, e ∈ acc.1 → dangerZone e ≠ z) →
         let r := foldl (checkZone within c loc) acc zones in
         wasInside (lastEvent (child_id c) z r.2) = false
         ∧ history (child_id c) z r.2 = history (child_id c) z acc.2
         ∧ ∀ e, e ∈ r.1 → dangerZone e ≠ z).
  { intros H. apply (H ([], st)); [done|]. by intros e ?%not_elem_of_nil. }
  clear Hwas. induction zones as [|zone zones IH]; intros acc Hwas Hout; simpl;
    [done|].
  assert (∀ zone', zone' ∈ zones → zone_id zone' = z →
            notifyOnEntry zone' = false) as Hoff'.
  { intros zone' Hin. apply Hoff. by right. }
  destruct (checkZone_cases c loc acc zone)
    as [[_ Heq]|(t & Hp & Hw & Hin & Heq)]; rewrite Heq.
  - by apply IH.
  - assert (zone_id zone ≠ z) as Hne.
    { intros Hz. revert Hp. unfold pending. rewrite Hz, Hwas.
      rewrite (Hoff zone) by (by left || done).
      by destruct (within loc (geo zone)). }
    destruct (IH Hoff'
      (acc.1 ++ [(create (child_id c) (zone_id zone) t loc acc.2).1],
       (create (child_id c) (zone_id zone) t loc acc.2).2)) as (H1 & H2 & H3).
    + cbn [snd]. rewrite lastEvent_create_other; [done|]. by intros [_ ?].
    + cbn [fst]. intros e [He | ->%list_elem_of_singleton]%elem_of_app;
        [by apply Hout | done].
    + split_and!; [done| |done]. rewrite H2. cbn [snd].
      apply history_create_other. by intros [_ ?].
Qed.

End Properties.
(** ** On the scenario *)

Section Scenario.
Import ZoneScenario.

(** The child leaves the school: the history of the pair is an exit after
    an entry. *)
Lemma history_alternates_witness :
  (∀ cid z : string, alternating (history cid z no_events))
  ∧ alternating (history "kid" "school" at_school)
  ∧ alternating
      (history "kid" "school"
         (checkDangerZones within (kidAt (50, 0)) zones at_school).2).
Proof.
  assert (∀ cid z : string, alternating (history cid z no_events)) as H0.
  { intros cid z. exact I. }
  assert (∀ cid z : string, alternating (history cid z at_school)) as H1.
  { intros cid z.
    exact (proj1 (history_alternates within (kidAt (3, 4)) zones no_events
                    H0 cid z)). }
  split; [exact H0|]. split; [exact (H1 "kid" "school")|].
  exact (proj1 (history_alternates within (kidAt (50, 0)) zones at_school
                  H1 "kid" "school")).
Defined.

Lemma check_twice_witness :
  NoDup (zone_id <$> zones)
  ∧ checkDangerZones within (kidAt (3, 4)) zones at_school = ([], at_school).
Proof.
  assert (NoDup (zone_id <$> zones)) as Hnd.
  { apply (bool_decide_unpack (NoDup (zone_id <$> zones))). vm_compute. exact I. }
  split; [exact Hnd|].
  exact (check_twice within (kidAt (3, 4)) zones no_events Hnd).
Defined.

(** The child walks into the river zone and out of it: nothing is
    recorded, though exits are to be reported. *)
Lemma entry_off_never_reports_witness :
  notifyOnExit river = true
  ∧ within (100, 2) (geo river) = true
  ∧ history "kid" "river"
      (checkDangerZones within (kidAt (100, 2)) zones at_school).2
    = history "kid" "river" at_school
  ∧ wasInside
      (lastEvent "kid" "river"
         (checkDangerZones within (kidAt (100, 2)) zones at_school).2)
    = false.
Proof.
  split; [reflexivity|]. split; [reflexivity|].
  destruct (entry_off_never_reports within (kidAt (100, 2)) zones at_school
              "river") as (Hwas & Hhist & _).
  - intros zone Hin Hid.
    apply elem_of_cons in Hin as [-> | Hin]; [discriminate|].
    apply list_elem_of_singleton in Hin as ->. reflexivity.
  - run.
  - split; [exact Hhist | exact Hwas].
Defined.

End Scenario.

End DangerZoneProperties.

(** * Properties of the alerts *)

Module NotificationProperties.
Import Notification.

Section Properties.
Context {Data : Type} {Collab : Collaborators Data}.
Implicit Types (data : Data) (parent : Parent).

(** X19.  [sendDangerZoneAlert] is rejected exactly when the lookup of the
    parent throws, with its error and before anything is sent or logged: a
    failure of the e-mail or of the SMS service never reaches the caller.
    [sendEmail] and [sendSms] pass the failure of their service on. *)
Theorem alert_failures_stay_inside parentId data :
  (∀ m, (sendDangerZoneAlert parentId data).1 = Some m ↔ findById parentId = inl m)
  ∧ ((sendDangerZoneAlert parentId data).1 ≠ None →
     (sendDangerZoneAlert parentId data).2 = [])
  ∧ (∀ to subject html, (sendEmail to subject html).1 = emailService_send to subject html)
  ∧ (∀ to message, (sendSms to message).1 = smsService_send to message).
Proof.
  unfold sendDangerZoneAlert, sendEmail, sendSms.
  split; [|split; [|split]].
  - intros m. destruct (findById parentId) as [m'|[p|]]; cbn [fst];
      split; intros H; try discriminate; by simplify_eq.
  - destruct (findById parentId) as [m'|[p|]]; cbn [fst snd]; done.
  - intros to subject html. by destruct (emailService_send to subject html).
  - intros to message. by destruct (smsService_send to message).
Qed.

(** X20.  For a parent that was found, the alert goes to each contact the
    parent has, the e-mail first: the SMS is sent whether or not the e-mail
    went through.  The warning that no contact is known is logged exactly
    when nothing was sent. *)
Theorem alert_channels parentId data parent :
  findById parentId = inr (Some parent) →
  let out := (sendDangerZoneAlert parentId data).2 in
  sends out =
    (if present (email parent)
     then [EmailSend (default "" (email parent)) (subjectOf data)
             (buildDangerZoneEmailHtml data)] else [])
    ++ (if present (phoneNumber parent)
        then [SmsSend (default "" (phoneNumber parent))
                (buildDangerZoneMessage data)] else [])
  ∧ (Logged WarnNoContact ∈ out ↔ sends out = []).
Proof.
  intros Hf. unfold sendDangerZoneAlert. rewrite Hf. cbn [snd].
  destruct (present (email parent)), (present (phoneNumber parent));
    cbn [negb andb];
    repeat match goal with
    | |- context [emailService_send ?a ?b ?c] => destruct (emailService_send a b c)
    | |- context [smsService_send ?a ?b] => destruct (smsService_send a b)
    end;
    (split; [reflexivity|]); cbn;
    split; intros H; try discriminate; try done;
    repeat match goal with
    | H : _ ∈ _ :: _ |- _ => apply elem_of_cons in H as [H|H]; [discriminate|]
    | H : _ ∈ [] |- _ => by apply elem_of_nil in H
    end.
  all: try by apply list_elem_of_singleton.
Qed.

End Properties.
(** ** On the scenario *)

Section Scenario.
Import AlertScenario.
#[local] Existing Instance demo_collaborators.

(** The e-mail to [p1] fails, and the SMS is sent all the same. *)
Lemma alert_channels_witness :
  findById "p1" = inr (Some p1)
  ∧ emailService_send "parent@weldiwin.tn" "Alert: Sami" "<p>Sami</p>"
    = Some "connection refused"
  ∧ (sendDangerZoneAlert "p1" "Sami").1 = None
  ∧ sends (sendDangerZoneAlert "p1" "Sami").2
    = [EmailSend "parent@weldiwin.tn" "Alert: Sami" "<p>Sami</p>";
       SmsSend "+21620000000" "WELDIWIN ALERT: Sami"].
Proof.
  assert (findById "p1" = inr (Some p1)) as Hf by reflexivity.
  split; [exact Hf|]. split; [reflexivity|]. split; [reflexivity|].
  destruct (alert_channels "p1" "Sami" p1 Hf) as [Hsends _].
  rewrite Hsends. reflexivity.
Defined.

(** A parent without contacts gets nothing but a warning in the log; an
    empty phone number counts as none. *)
Example alert_without_contact :
  sendDangerZoneAlert "p2" "Sami" = (None, [Logged WarnNoContact])
  ∧ sendDangerZoneAlert "p9" "Sami" = (None, [Logged WarnParentNotFound])
  ∧ sendDangerZoneAlert "" "Sami" = (Some "Cast to ObjectId failed", []).
Proof. repeat split. Qed.

End Scenario.

End NotificationProperties.

(** * Properties of the linked parents *)

Module ChildLinkProperties.
Import ChildLinks.

Section Properties.
Context (objectId : string → option string).
Implicit Types (child : Child) (currentUser : CurrentUser) (l : list string).

Lemma some_is_elem s l : some_is s l = true ↔ s ∈ l.
Proof.
  unfold some_is. rewrite existsb_exists. split.
  - intros (p & Hin & Heq). apply String.eqb_eq in Heq as ->.
    by apply list_elem_of_In.
  - intros Hin. exists s. split; [by apply list_elem_of_In|].
    apply String.eqb_refl.
Qed.

Lemma some_is_not_elem s l : some_is s l = false ↔ s ∉ l.
Proof.
  rewrite <- some_is_elem. by destruct (some_is s l).
Qed.

Lemma without_elem s p l : p ∈ without s l ↔ p ∈ l ∧ p ≠ s.
Proof.
  unfold without. rewrite !list_elem_of_In, filter_In, negb_true_iff.
  by rewrite String.eqb_neq.
Qed.

Lemma without_NoDup s l : NoDup l → NoDup (without s l).
Proof.
  rewrite !NoDup_ListNoDup. unfold without. apply List.NoDup_filter.
Qed.

Lemma without_fresh s l : s ∉ l → without s l = l.
Proof.
  induction l as [|p l IH]; [done|].
  intros [Hne Hl]%not_elem_of_cons. cbn.
  destruct (String.eqb_spec p s) as [->|_]; [done|].
  cbn. f_equal. by apply IH.
Qed.

Lemma without_snoc s l : s ∉ l → without s (l ++ [s]) = l.
Proof.
  intros Hl. unfold without. rewrite List.filter_app. cbn.
  rewrite String.eqb_refl. cbn. rewrite app_nil_r. by apply without_fresh.
Qed.

(** X21.  A child is well linked when the main parent is not among the
    linked parents and nobody is linked twice.  Each of the three
    operations, when it succeeds, saves a well linked child if it found
    one; for a new link the id of the user has to be the string of its own
    [ObjectId]. *)
Theorem links_stay_well_formed child currentUser user parentId saved calls :
  well_linked child →
  (linkParentByQr objectId (Some child) currentUser user = inr (saved, calls)
   ∧ objectId (id currentUser) = Some (id currentUser))
  ∨ unlinkParent objectId (Some child) currentUser = inr (saved, calls)
  ∨ unlinkSpecificParent objectId (Some child) parentId currentUser
    = inr (saved, calls) →
  well_linked saved ∧ parent saved = parent child
  ∧ child_id saved = child_id child.
Proof.
  intros [Hmain Hnodup] [[Hop Hid] | [Hop | Hop]].
  - unfold linkParentByQr in Hop. rewrite Hid in Hop.
    destruct (String.eqb_spec (parent child) (id currentUser)) as [|Hne];
      [done|].
    destruct (some_is (id currentUser) (linkedParents child)) eqn:Hsome;
      [done|].
    apply some_is_not_elem in Hsome.
    destruct user as [[| |]|]; try done. simplify_eq.
    split; [|done]. split; cbn.
    + rewrite elem_of_app, list_elem_of_singleton. by intros [|].
    + apply NoDup_app. split; [done|]. split; [|apply NoDup_singleton].
      intros p Hp ->%list_elem_of_singleton. done.
  - unfold unlinkParent in Hop.
    destruct (String.eqb (parent child) (id currentUser)); [done|].
    destruct (some_is (id currentUser) (linkedParents child)); [|done].
    cbn in Hop. simplify_eq. split; [|done]. split; cbn.
    + rewrite without_elem. by intros [? _].
    + by apply without_NoDup.
  - unfold unlinkSpecificParent in Hop.
    destruct (negb (bool_decide (role currentUser = ADMIN))
              && negb (String.eqb (parent child) (id currentUser))); [done|].
    destruct (String.eqb (parent child) parentId); [done|].
    destruct (some_is parentId (linkedParents child)); [|done].
    cbn in Hop. simplify_eq. split; [|done]. split; cbn.
    + rewrite without_elem. by intros [? _].
    + by apply without_NoDup.
Qed.

(** X22.  Linking by QR code and then unlinking again gives back the child
    as it was found, and the room that the link created is the one that the
    unlinking deactivates. *)
Theorem link_unlink_roundtrip child currentUser user saved calls :
  objectId (id currentUser) = Some (id currentUser) →
  linkParentByQr objectId (Some child) currentUser user = inr (saved, calls) →
  calls = [RoomCreate (id currentUser) (child_id child)]
  ∧ id currentUser ∈ linkedParents saved
  ∧ unlinkParent objectId (Some saved) currentUser
    = inr (child, [RoomDeactivate (id currentUser) (child_id child)]).
Proof.
  intros Hid Hop. unfold linkParentByQr in Hop. rewrite Hid in Hop.
  destruct (String.eqb (parent child) (id currentUser)) eqn:Hmain; [done|].
  destruct (some_is (id currentUser) (linkedParents child)) eqn:Hsome; [done|].
  apply some_is_not_elem in Hsome.
  destruct user as [[| |]|]; try done. simplify_eq.
  split; [done|]. split.
  { cbn. rewrite elem_of_app, list_elem_of_singleton. by right. }
  unfold unlinkParent, deactivate. cbn [with_linkedParents parent linkedParents child_id].
  rewrite Hmain, Hid.
  assert (some_is (id currentUser) (linkedParents child ++ [id currentUser]) = true)
    as ->.
  { apply some_is_elem. rewrite elem_of_app, list_elem_of_singleton. by right. }
  cbn [negb]. rewrite without_snoc by done. by destruct child.
Qed.

(** X23.  Unlinking removes every entry of the user, also from a list in
    which the user is linked more than once, and leaves the other linked
    parents in their order; a second unlinking is refused. *)
Theorem unlink_is_complete child currentUser saved calls :
  unlinkParent objectId (Some child) currentUser = inr (saved, calls) →
  (id currentUser ∉ linkedParents saved)
  ∧ (∀ p, p ≠ id currentUser → (p ∈ linkedParents saved ↔ p ∈ linkedParents child))
  ∧ linkedParents saved `sublist_of` linkedParents child
  ∧ unlinkParent objectId (Some saved) currentUser
    = inl (ForbiddenException "You are not linked to this child").
Proof.
  intros Hop. unfold unlinkParent in Hop.
  destruct (String.eqb (parent child) (id currentUser)) eqn:Hmain; [done|].
  destruct (some_is (id currentUser) (linkedParents child)); [|done].
  cbn in Hop. simplify_eq.
  assert (id currentUser ∉ without (id currentUser) (linkedParents child)) as Hout.
  { rewrite without_elem. by intros [_ ?]. }
  split; [done|]. split; [|split].
  - intros p Hp. cbn. rewrite without_elem. split; [by intros [? _] | by split].
  - cbn. unfold without. clear. induction (linkedParents child) as [|p l IH];
      [done|].
    cbn. destruct (negb _); by constructor.
  - unfold unlinkParent. cbn [with_linkedParents parent linkedParents].
    rewrite Hmain. apply some_is_not_elem in Hout. by rewrite Hout.
Qed.

(** X24.  Only an admin or the main parent of the child can unlink another
    parent, the main parent itself can be unlinked by nobody, and the call
    changes nothing but the entries of that parent. *)
Theorem unlink_specific_guarded child parentId currentUser saved calls :
  unlinkSpecificParent objectId (Some child) parentId currentUser
    = inr (saved, calls) →
  (role currentUser = ADMIN ∨ parent child = id currentUser)
  ∧ parentId ≠ parent child
  ∧ parentId ∈ linkedParents child
  ∧ (parentId ∉ linkedParents saved)
  ∧ (∀ p, p ≠ parentId → (p ∈ linkedParents saved ↔ p ∈ linkedParents child)).
Proof.
  intros Hop. unfold unlinkSpecificParent in Hop.
  destruct (decide (role currentUser = ADMIN)) as [Hadmin|Hadmin].
  - rewrite bool_decide_eq_true_2 in Hop by done. cbn in Hop.
    destruct (String.eqb_spec (parent child) parentId) as [|Hne]; [done|].
    destruct (some_is parentId (linkedParents child)) eqn:Hsome; [|done].
    cbn in Hop. simplify_eq. apply some_is_elem in Hsome.
    split; [by left|]. split; [done|]. split; [done|]. split; cbn.
    + rewrite without_elem. by intros [_ ?].
    + intros p Hp. rewrite without_elem. split; [by intros [? _] | by split].
  - rewrite bool_decide_eq_false_2 in Hop by done. cbn in Hop.
    destruct (String.eqb_spec (parent child) (id currentUser)) as [Hmain|];
      [|done].
    cbn in Hop.
    destruct (String.eqb_spec (parent child) parentId) as [|Hne]; [done|].
    destruct (some_is parentId (linkedParents child)) eqn:Hsome; [|done].
    cbn in Hop. simplify_eq. apply some_is_elem in Hsome.
    split; [by right|]. split; [done|]. split; [done|]. split; cbn.
    + rewrite without_elem. by intros [_ ?].
    + intros p Hp. rewrite without_elem. split; [by intros [? _] | by split].
Qed.

End Properties.
(** ** On the scenario *)

Section Scenario.
Import LinkScenario.

(** The aunt links herself to the child. *)
Lemma links_stay_well_formed_witness :
  well_linked kid
  ∧ linkParentByQr demo_objectId (Some kid) (asParent aunt) (Some PARENT)
    = inr (with_linkedParents kid [father; aunt],
           [RoomCreate aunt (child_id kid)])
  ∧ well_linked (with_linkedParents kid [father; aunt]).
Proof.
  assert (well_linked kid) as Hwl.
  { split.
    - intros Hin. apply list_elem_of_singleton in Hin. discriminate.
    - apply NoDup_singleton. }
  assert (linkParentByQr demo_objectId (Some kid) (asParent aunt) (Some PARENT)
          = inr (with_linkedParents kid [father; aunt],
                 [RoomCreate aunt (child_id kid)])) as Hlink by reflexivity.
  split; [exact Hwl|]. split; [exact Hlink|].
  refine (proj1 (links_stay_well_formed demo_objectId kid (asParent aunt)
                   (Some PARENT) "" _ _ Hwl _)).
  left. split; [exact Hlink | reflexivity].
Defined.

Lemma link_unlink_roundtrip_witness :
  demo_objectId aunt = Some aunt
  ∧ unlinkParent demo_objectId (Some (with_linkedParents kid [father; aunt]))
      (asParent aunt)
    = inr (kid, [RoomDeactivate aunt (child_id kid)]).
Proof.
  split; [reflexivity|].
  refine (proj2 (proj2 (link_unlink_roundtrip demo_objectId kid (asParent aunt)
                          (Some PARENT) _ _ _ _))); reflexivity.
Defined.

(** The father, linked twice, unlinks himself once and is gone. *)
Lemma unlink_is_complete_witness :
  unlinkParent demo_objectId (Some kid_twice) (asParent father)
  = inr (with_linkedParents kid_twice [aunt],
         [RoomDeactivate father (child_id kid_twice)])
  ∧ unlinkParent demo_objectId (Some (with_linkedParents kid_twice [aunt]))
      (asParent father)
    = inl (ForbiddenException "You are not linked to this child").
Proof.
  assert (unlinkParent demo_objectId (Some kid_twice) (asParent father)
          = inr (with_linkedParents kid_twice [aunt],
                 [RoomDeactivate father (child_id kid_twice)])) as Hop
    by reflexivity.
  split; [exact Hop|].
  exact (proj2 (proj2 (proj2 (unlink_is_complete demo_objectId kid_twice
                                (asParent father) _ _ Hop)))).
Defined.

(** The mother unlinks the father; the aunt cannot. *)
Lemma unlink_specific_guarded_witness :
  unlinkSpecificParent demo_objectId (Some kid) father (asParent mother)
  = inr (with_linkedParents kid [], [RoomDeactivate father (child_id kid)])
  ∧ (role (asParent mother) = ADMIN ∨ parent kid = id (asParent mother))
  ∧ father ≠ parent kid.
Proof.
  assert (unlinkSpecificParent demo_objectId (Some kid) father (asParent mother)
          = inr (with_linkedParents kid [],
                 [RoomDeactivate father (child_id kid)])) as Hop
    by reflexivity.
  split; [exact Hop|].
  destruct (unlink_specific_guarded demo_objectId kid father (asParent mother)
              _ _ Hop) as (Hwho & Hmain & _).
  split; [exact Hwho | exact Hmain].
Defined.

Example unlink_specific_refused :
  unlinkSpecificParent demo_objectId (Some kid) father (asParent aunt)
  = inl (ForbiddenException
           "Only the main parent or admin can unlink other parents")
  ∧ unlinkSpecificParent demo_objectId (Some kid) mother (asParent mother)
    = inl (ForbiddenException "Cannot unlink main parent").
Proof. split; reflexivity. Qed.

End Scenario.

End ChildLinkProperties.

(** * The scenario, checked on the code *)

Import Scenario.
#[local] Existing Instance demo_host.
#[local] Existing Instance demo_services.

Lemma join_step socketId room g :
  server_sockets g !! socketId ≠ None → step any_time g (join socketId room g).
Proof.
  intros Hc. unfold join, clientOf.
  destruct (server_sockets g !! socketId) as [client|] eqn:Hs; [|done].
  simpl. by eapply step_joinRoom.
Qed.

Lemma scenario_reachable : reachable scenario.
Proof.
  unfold reachable, scenario, connected.
  repeat (eapply rtc_r;
    [| first [ apply join_step; run | apply step_connect; run ] ]).
  apply rtc_refl.
Qed.

Example scenario_registry :
  userSockets scenario !! "U" = Some ["c1"; "c2"]
  ∧ userSockets scenario !! "S" = Some ["s1"]
  ∧ getConnectedUsersCount scenario = 2%nat
  ∧ members "room:R" (server_sockets scenario) = {["s1"; "c1"; "c2"]}.
Proof. run. Qed.


(** [U] on two devices: the offer goes to [c2], the newer one, only. *)
Lemma C1_targeted_delivery_witness :
  SignalFrom sender userS offer "offer"
  ∧ userSockets scenario !! "U" = Some ["c1"; "c2"]
  ∧ effects (onSendText 5000 sender offer scenario)
    = [SocketEmit "c2" "newMessage" (DataBody offer)].
Proof.
  assert (SignalFrom sender userS offer "offer") as Hs by run.
  assert (userSockets scenario !! "U" = Some ["c1"; "c2"]) as Hu by run.
  assert (has multiTargetSignals "offer" = false) as Hm by run.
  split; [exact Hs|]. split; [exact Hu|].
  destruct (C1_targeted_delivery 5000 sender userS offer scenario "offer" "U"
              ["c1"; "c2"] Hs) as (_ & _ & Hone & _);
    [run | reflexivity | discriminate | exact Hu | simpl; lia |].
  apply (Hone Hm "c2" ["c1"]). run.
Defined.

(** A call request rings on both devices, newest first. *)
Example callRequest_fans_out :
  effects (onSendText 5000 sender callRequest scenario)
  = [SocketEmit "c2" "newMessage" (DataBody callRequest);
     SocketEmit "c1" "newMessage" (DataBody callRequest)].
Proof. run. Qed.

(** The offer again after 200 ms is absorbed, after 1100 ms delivered. *)
Lemma C2_dedup_window_witness :
  reply (onSendText 5000 sender offer scenario)
  = ReplyOkType "webrtc_signal" false
  ∧ effects (onSendText 5200 sender offer
               (gateway (onSendText 5000 sender offer scenario))) = []
  ∧ reply (onSendText 5200 sender offer
             (gateway (onSendText 5000 sender offer scenario)))
    = ReplyOkType "webrtc_signal" true
  ∧ reply (onSendText 6100 sender offer
             (gateway (onSendText 5000 sender offer scenario)))
    = ReplyOkType "webrtc_signal" false.
Proof.
  assert (SignalFrom sender userS offer "offer") as Hs by run.
  assert (reply (onSendText 5000 sender offer scenario)
          = ReplyOkType "webrtc_signal" false) as Hr by run.
  assert (has dedupSignals "offer" = true) as He by run.
  assert (5000 ≠ 0) as Hnz by lia.
  destruct (C2_dedup_window 5000 5200 sender userS offer sender userS offer
              scenario "offer" Hs Hs He eq_refl Hnz Hr) as (_ & Hin & _).
  destruct (C2_dedup_window 5000 6100 sender userS offer sender userS offer
              scenario "offer" Hs Hs He eq_refl Hnz Hr) as (_ & _ & Hout).
  destruct Hin as (Hr2 & He2 & _); [unfold dedupWindowMs; lia|].
  destruct Hout as (Hr3 & _); [unfold dedupWindowMs; lia|].
  split; [exact Hr|]. split; [exact He2|]. split; [exact Hr2 | exact Hr3].
Defined.

(** [U] is connected, but not in room [Q]: the offer is broadcast there. *)
Lemma C3_room_fallback_witness :
  userSockets scenario !! "U" = Some ["c1"; "c2"]
  ∧ effects (onSendText 5000 sender offerInQ scenario)
    = [ClientRoomEmit "s1" "room:Q" "newMessage" (DataBody offerInQ)].
Proof.
  split; [run|].
  assert (SignalFrom sender userS offerInQ "offer") as Hs by run.
  assert (default [] (registryGet (targetId offerInQ) (userSockets scenario))
          = ["c1"; "c2"]) as Hids by run.
  refine (proj1 (C3_room_fallback 5000 sender userS offerInQ scenario "offer"
                   Hs _ _ _)); [run | run |].
  rewrite Hids. intros c Hc. right.
  apply elem_of_cons in Hc as [->|Hc];
    [|apply list_elem_of_singleton in Hc as ->];
    eexists; (split; [run|]); (split; [run|]); (split; [run|]);
    vm_compute; intros [=].
Defined.

(** An identity without registry entry: the offer is broadcast to [R]. *)
Example offer_to_absent_user :
  let out := effects (onSendText 5000 sender offerToAbsent scenario) in
  out = [ClientRoomEmit "s1" "room:R" "newMessage" (DataBody offerToAbsent)]
  ∧ recipients (server_sockets scenario) <$> out = [{["c1"; "c2"]}].
Proof. run. Qed.

(** [s1] is the only connection of [S]: disconnecting it takes [S]
    offline; [c1] leaves the connections of [U], who stays online. *)
Lemma C4_registry_invariant_witness :
  reachable scenario
  ∧ ("s1" ∉ connectionsFor "S" (disconnect sender scenario))
  ∧ isUserOnline "S" (disconnect sender scenario) = false
  ∧ ("c1" ∉ connectionsFor "U" (disconnect (clientOf "c1" scenario) scenario)).
Proof.
  destruct (C4_registry_invariant scenario scenario_reachable)
    as (_ & _ & Hgone).
  destruct (Hgone "s1" sender "S") as [Hs Hoff]; [run|].
  destruct (Hgone "c1" (clientOf "c1" scenario) "U") as [Hc _]; [run|].
  split; [exact scenario_reachable|]. split; [exact Hs|].
  split; [apply Hoff; run | exact Hc].
Defined.

Example disconnect_one_of_two :
  connectionsFor "U" (disconnect (clientOf "c1" scenario) scenario) = ["c2"]
  ∧ isUserOnline "U" (disconnect (clientOf "c1" scenario) scenario) = true
  ∧ userSockets (disconnect sender scenario) !! "S" = None.
Proof. run. Qed.

(** An anonymous connection cannot join a room: [onJoinRoom] answers
    [Unauthorized] and the socket joins nothing. *)
Lemma C5_anonymous_join_counterexample :
  sock_user anonymous = None
  ∧ reply (onJoinRoom (Msg := string) (SigMsg := string)
             anonymous (VStr "R") scenario)
    = ReplyError "Unauthorized"
  ∧ reply (onJoinRoom (Msg := string) (SigMsg := string)
             anonymous (VStr "R") scenario)
    ≠ ReplyOkRoom (VStr "R")
  ∧ "a1" ∉ members "room:R"
             (server_sockets
                (gateway (onJoinRoom (Msg := string) (SigMsg := string)
                            anonymous (VStr "R") scenario))).
Proof.
  split; [run|]. split; [run|]. split; [run|].
  vm_compute. intros [=].
Qed.

Lemma C5_anonymous_witness :
  sock_user anonymous = None
  ∧ reply (onLeaveRoom (Msg := string) (SigMsg := string)
             anonymous (VStr "R") scenario)
    = ReplyOkRoom (VStr "R")
  ∧ reply (onSendText 5000 anonymous offer scenario) = ReplyError "Unauthorized"
  ∧ effects (onSendText 5000 anonymous (chat (VStr "hello")) scenario) = [].
Proof.
  assert (sock_user anonymous = None) as Ha by run.
  destruct (C5_anonymous anonymous scenario Ha (VStr "R") 5000 offer
              {| sig_roomId := VStr "R"; sig_senderModel := VStr "User";
                 sig_senderId := VStr "S"; sig_type := VStr "CALL_OFFER";
                 sig_payload := VUndefined |})
    as (_ & Hleave & _ & _ & Hsend & _).
  destruct (C5_anonymous anonymous scenario Ha (VStr "R") 5000
              (chat (VStr "hello"))
              {| sig_roomId := VStr "R"; sig_senderModel := VStr "User";
                 sig_senderId := VStr "S"; sig_type := VStr "CALL_OFFER";
                 sig_payload := VUndefined |})
    as (_ & _ & _ & _ & Hchat & _).
  split; [exact Ha|]. split; [exact Hleave|].
  split; [by rewrite Hsend | by rewrite Hchat].
Defined.

(** A chat message is persisted, then sent to everybody in the room; one
    that the service refuses is only answered. *)
Lemma C6_chat_persistence_witness :
  reply (onSendText 5000 sender (chat (VStr "hello")) scenario) = ReplyMsg "hello"
  ∧ effects (onSendText 5000 sender (chat (VStr "hello")) scenario)
    = [CallSendText (chat (VStr "hello")) userS;
       ServerRoomEmit "room:R" "newMessage" (DataMsg "hello")]
  ∧ reply (onSendText 5000 sender (chat VUndefined) scenario)
    = ReplyError "content required"
  ∧ effects (onSendText 5000 sender (chat VUndefined) scenario)
    = [CallSendText (chat VUndefined) userS].
Proof.
  assert (sock_user sender = Some userS) as Hu by run.
  destruct (C6_chat_persistence 5000 sender userS (chat (VStr "hello")) scenario
              Hu) as [_ Hok]; [run|].
  destruct (C6_chat_persistence 5000 sender userS (chat VUndefined) scenario
              Hu) as [Hfail _]; [run|].
  destruct (Hok "hello") as (Hr & He & _); [run|].
  destruct (Hfail "content required") as (Hr' & He' & _); [run|].
  split; [exact Hr|]. split; [exact He|]. split; [exact Hr' | exact He'].
Defined.

(** The reply to an [offer] names the message type, not the signal type. *)
Lemma C7_type_field_counterexample :
  signalType offer = VStr "offer"
  ∧ reply (onSendText 5000 sender offer scenario)
    = ReplyOkType "webrtc_signal" false
  ∧ reply (onSendText 5000 sender offer scenario) ≠ ReplyOkType "offer" false.
Proof. split; [run|]. split; run. Qed.

Lemma C7_signal_reply_witness :
  SignalFrom sender userS offer "offer"
  ∧ reply (onSendText 5000 sender offer scenario)
    = ReplyOkType "webrtc_signal" false.
Proof.
  assert (SignalFrom sender userS offer "offer") as Hs by run.
  split; [exact Hs|].
  destruct (C7_signal_reply 5000 sender userS offer scenario "offer" Hs)
    as [Hr _].
  assert ((isDuplicateSignal 5000 "offer" offer (recentSignals scenario)).1
          = false) as Hd by run.
  rewrite Hr, Hd. reflexivity.
Defined.

(** An [answer] recorded at 3100 and an [offer] recorded at 5000: the
    repeated offer at 5500 is a duplicate, and the check returns without
    sweeping the answer, which is then 2400 ms old. *)
Lemma C8_no_sweep_on_duplicate_counterexample :
  let r1 := (isDuplicateSignal 3100 "answer" answer ∅).2 in
  let r2 := (isDuplicateSignal 5000 "offer" offer r1).2 in
  let r3 := isDuplicateSignal 5500 "offer" offer r2 in
  r3.1 = true
  ∧ r3.2 !! dedupKey "answer" answer = Some 3100
  ∧ 5500 - 3100 > 2 * dedupWindowMs.
Proof. run. Qed.

(** The same without a duplicate: an [ice-candidate] at 5500 is not
    dedup-eligible and sweeps nothing either. *)
Example no_sweep_on_ineligible :
  let r1 := (isDuplicateSignal 3100 "answer" answer ∅).2 in
  let r3 := isDuplicateSignal 5500 "ice-candidate" iceCandidate r1 in
  r3.1 = false ∧ r3.2 !! dedupKey "answer" answer = Some 3100.
Proof. run. Qed.

Lemma C8_sweep_on_record_witness :
  let r1 := (isDuplicateSignal 3100 "answer" answer ∅).2 in
  let r2 := (isDuplicateSignal 5500 "offer" offer r1).2 in
  r1 !! dedupKey "answer" answer = Some 3100
  ∧ r2 !! dedupKey "answer" answer = None
  ∧ r2 !! dedupKey "offer" offer = Some 5500.
Proof.
  intros r1 r2.
  assert (has dedupSignals "offer" = true) as He by run.
  assert ((isDuplicateSignal 5500 "offer" offer r1).1 = false) as Hd by run.
  destruct (C8_sweep_on_record 5500 "offer" offer r1 He Hd) as [Hold Hall].
  split; [run|]. split.
  - destruct (r2 !! dedupKey "answer" answer) as [t|] eqn:Ht; [|reflexivity].
    exfalso. apply Hall in Ht as [Ht Hage]. revert Ht Hage.
    vm_compute. intros [= <-]. by intros [].
  - apply Hall. split; run.
Defined.

(** Two offers whose payloads differ only after the 64th character: the
    second is taken for a retry of the first. *)
Lemma C9_payload_prefix_witness :
  data (longOffer "a=mid:0") ≠ data (longOffer "a=mid:1")
  ∧ payloadHashOf (longOffer "a=mid:0") = payloadHashOf (longOffer "a=mid:1")
  ∧ reply (onSendText 5200 sender (longOffer "a=mid:1")
             (gateway (onSendText 5000 sender (longOffer "a=mid:0") scenario)))
    = ReplyOkType "webrtc_signal" true
  ∧ effects (onSendText 5200 sender (longOffer "a=mid:1")
               (gateway (onSendText 5000 sender (longOffer "a=mid:0") scenario)))
    = [].
Proof.
  assert (SignalFrom sender userS (longOffer "a=mid:0") "offer") as H1 by run.
  assert (SignalFrom sender userS (longOffer "a=mid:1") "offer") as H2 by run.
  assert (has dedupSignals "offer" = true) as He by run.
  assert (payloadHashOf (longOffer "a=mid:0")
          = payloadHashOf (longOffer "a=mid:1")) as Hp by run.
  assert (5000 ≠ 0) as Hnz by lia.
  assert (5200 - 5000 < dedupWindowMs) as Hin by (unfold dedupWindowMs; lia).
  assert (reply (onSendText 5000 sender (longOffer "a=mid:0") scenario)
          = ReplyOkType "webrtc_signal" false) as Hr by run.
  destruct (C9_payload_prefix 5000 5200 sender userS (longOffer "a=mid:0")
              sender userS (longOffer "a=mid:1") scenario "offer"
              H1 H2 He eq_refl eq_refl eq_refl Hp Hnz Hin Hr)
    as ((_ & Hdup & Hnone) & _).
  split; [run|]. split; [exact Hp|]. split; [exact Hdup | exact Hnone].
Defined.


Example ice_candidate_twice :
  let o1 := onSendText 5000 sender iceCandidate scenario in
  let o2 := onSendText 5000 sender iceCandidate (gateway o1) in
  effects o1 = [SocketEmit "c2" "newMessage" (DataBody iceCandidate)]
  ∧ effects o2 = [SocketEmit "c2" "newMessage" (DataBody iceCandidate)]
  ∧ recentSignals (gateway o2) = ∅.
Proof. run. Qed.

(** ** Edges of the scenario *)

(** A timestamp 0 in the cache reads as no entry ([lastSeen && ...]). *)
Example dedup_at_epoch :
  let o1 := onSendText 0 sender offer scenario in
  let o2 := onSendText 200 sender offer (gateway o1) in
  recentSignals (gateway o1) !! dedupKey "offer" offer = Some 0
  ∧ reply o2 = ReplyOkType "webrtc_signal" false.
Proof. run. Qed.

(** Without a room id there is no room to filter by: before anybody joined
    a room, the candidate still reaches the newest connection of [U]. *)
Example ice_candidate_without_room :
  effects (onSendText 5000 (clientOf "s1" connected) iceWithoutRoom connected)
  = [SocketEmit "c2" "newMessage" (DataBody iceWithoutRoom)].
Proof. run. Qed.

(** A falsy payload counts as absent, whatever its serialisation. *)
Example falsy_payload_hash :
  other_stringify false = Some "false"
  ∧ payloadHashOf offerWithFalse = ""
  ∧ dedupKey "offer" offerWithFalse = "offer|S|U|R|".
Proof. run. Qed.

(** The signal type is compared in lower case. *)
Example offer_in_capitals :
  normalizeSignalType (VStr "OFFER") = Some "offer"
  ∧ normalizeSignalType (Other := bool) VUndefined = Some ""
  ∧ normalizeSignalType (VOther true) = None.
Proof. run. Qed.

(** ** The further properties on the scenario *)

(** A third socket of user [U] connects and is gone again. *)
Lemma connect_disconnect_roundtrip_witness :
  registry_inv scenario
  ∧ disconnect (clientOf "c3" (connect "c3" (bearer "U") scenario))
      (connect "c3" (bearer "U") scenario)
    = scenario.
Proof.
  assert (registry_inv scenario) as Hinv
    by exact (registry_inv_reachable scenario scenario_reachable).
  split; [exact Hinv|].
  apply (connect_disconnect_roundtrip scenario "c3" (bearer "U")
           (clientOf "c3" (connect "c3" (bearer "U") scenario)) Hinv); run.
Defined.

(** A fan-out to [U] and an offer of [S] leave the registry as it is. *)
Lemma delivery_keeps_registry_witness :
  reachable scenario
  ∧ (sendMessageToUser (Msg := string) (SigMsg := string)
       (VStr "U") "notification" (DataBody offer) None scenario).1.2
    = scenario
  ∧ userSockets (gateway (onSendText 5000 sender offer scenario))
    = userSockets scenario.
Proof.
  destruct (delivery_keeps_registry (Msg := string) (SigMsg := string)
              scenario scenario_reachable) as [Hsend Hkeep].
  split; [exact scenario_reachable|]. split.
  - exact (Hsend (VStr "U") "notification" (DataBody offer) None).
  - exact (proj1 (Hkeep 5000 sender offer)).
Defined.

(** Socket [c1] is registered for [U], so it is live and authenticated as
    [U]. *)
Lemma registry_exact_witness :
  reachable scenario
  ∧ ∃ s, server_sockets scenario !! "c1" = Some s
         ∧ sock_user s ≫= userIdOf = Some "U".
Proof.
  destruct (registry_exact scenario "U" scenario_reachable) as [Hconn _].
  split; [exact scenario_reachable|].
  apply (Hconn "c1"). vm_compute. constructor.
Defined.

Lemma connected_users_count_witness :
  reachable scenario
  ∧ ∃ online : gset string,
      (∀ u : string, u ∈ online ↔ isUserOnline u scenario = true)
      ∧ getConnectedUsersCount scenario = size online.
Proof.
  split; [exact scenario_reachable|].
  exact (connected_users_count scenario scenario_reachable).
Defined.

(** Without options both sockets of [U] get the event, [c2] first. *)
Lemma sendMessageToUser_default_witness :
  userSockets scenario !! "U" = Some ["c1"; "c2"]
  ∧ (sendMessageToUser (Msg := string) (SigMsg := string)
       (VStr "U") "notification" (DataBody offer) None scenario).2
    = [SocketEmit "c2" "notification" (DataBody offer);
       SocketEmit "c1" "notification" (DataBody offer)].
Proof.
  assert (userSockets scenario !! "U" = Some ["c1"; "c2"]) as Hu by run.
  split; [exact Hu|].
  destruct (sendMessageToUser_default (Msg := string) (SigMsg := string)
              scenario "U" ["c1"; "c2"] "notification" (DataBody offer) Hu)
    as (_ & _ & Hall & _).
  rewrite Hall; [reflexivity|].
  intros c Hc. unfold live.
  apply elem_of_cons in Hc as [-> | Hc]; [vm_compute; eexists; reflexivity|].
  apply list_elem_of_singleton in Hc as ->. vm_compute. eexists. reflexivity.
Defined.

(** The socket [c1] went away without [handleDisconnect]: the next fan-out
    to [U] removes it from the registry. *)
Lemma sendToUser_prunes_witness :
  userSockets scenario_stale !! "U" = Some ["c1"; "c2"]
  ∧ ¬ live scenario_stale "c1"
  ∧ ("c1" ∉ connectionsFor "U"
       (sendToUser (Msg := string) (SigMsg := string)
          (VStr "U") "notification" (DataBody offer) None scenario_stale).1.2)
  ∧ userSockets
      (sendToUser (Msg := string) (SigMsg := string)
         (VStr "U") "notification" (DataBody offer) None scenario_stale).1.2
      !! "S"
    = userSockets scenario_stale !! "S".
Proof.
  assert (userSockets scenario_stale !! "U" = Some ["c1"; "c2"]) as Hu by run.
  assert (¬ live scenario_stale "c1") as Hgone.
  { unfold live. vm_compute. by intros [? [=]]. }
  destruct (sendToUser_prunes (Msg := string) (SigMsg := string)
              scenario_stale "U" ["c1"; "c2"] "notification" (DataBody offer)
              None Hu)
    as (Hconn & _ & Hother); [discriminate | left; reflexivity |].
  split; [exact Hu|]. split; [exact Hgone|]. split.
  - intros Hin. apply Hconn in Hin as [_ Hlive]. exact (Hgone Hlive).
  - apply Hother. discriminate.
Defined.

(** A third socket of [U]: it is the one a single-target delivery goes
    to. *)
Lemma newest_session_wins_witness :
  connectionsFor "U" (connect "c3" (bearer "U") scenario) = ["c1"; "c2"; "c3"]
  ∧ (sendMessageToUser (Msg := string) (SigMsg := string)
       (VStr "U") "notification" (DataBody offer)
       (Some {| opt_roomId := VUndefined; opt_multi := Some false |})
       (connect "c3" (bearer "U") scenario)).2
    = [SocketEmit "c3" "notification" (DataBody offer)].
Proof.
  assert (registry_inv scenario) as Hinv
    by exact (registry_inv_reachable scenario scenario_reachable).
  destruct (newest_session_wins (Msg := string) (SigMsg := string)
              scenario "c3" (bearer "U") "U"
              {| jwt_id := Some "U"; jwt_sub := None; jwt_userId := None |}
              "U" "notification" (DataBody offer) Hinv)
    as (Hconn & _ & Hsend); [run | run | discriminate | run | run |].
  split; [|exact Hsend].
  rewrite Hconn. run.
Defined.

(** [S] leaves room [R]: the two sockets of [U] remain and get the
    presence event. *)
Lemma presence_reaches_room_witness :
  server_sockets scenario !! "s1" = Some sender
  ∧ members "room:R"
      (server_sockets
         (gateway (onLeaveRoom (Msg := string) (SigMsg := string)
                     sender (VStr "R") scenario)))
    = members "room:R" (server_sockets scenario) ∖ {["s1"]}.
Proof.
  assert (server_sockets scenario !! "s1" = Some sender) as Hs by run.
  split; [exact Hs|].
  destruct (presence_reaches_room (Msg := string) (SigMsg := string)
              scenario "s1" sender (VStr "R") Hs)
    as (_ & Hleft & _); [run|].
  exact Hleft.
Defined.

(** [S] joins room [Q] and leaves it again. *)
Lemma join_leave_roundtrip_witness :
  server_sockets scenario !! "s1" = Some sender
  ∧ ∃ client',
      server_sockets (join "s1" "Q" scenario) !! "s1" = Some client'
      ∧ gateway (onLeaveRoom (Msg := string) (SigMsg := string)
                   client' (VStr "Q") (join "s1" "Q" scenario))
        = scenario.
Proof.
  assert (server_sockets scenario !! "s1" = Some sender) as Hs by run.
  split; [exact Hs|].
  destruct (join_leave_roundtrip (Msg := string) (SigMsg := string)
              scenario "s1" sender userS (VStr "Q") Hs)
    as (client' & Hc & _ & Hback); [run | run |].
  exists client'. split.
  - rewrite <- Hc. run.
  - apply Hback. vm_compute. intros [=].
Defined.

(** Two long offers with one key agree in the first 64 characters of the
    payload. *)
Lemma dedupKey_injective_witness :
  dedupKey "offer" (longOffer "a=mid:0") = dedupKey "offer" (longOffer "a=mid:1")
  ∧ payloadHashOf (longOffer "a=mid:0") = payloadHashOf (longOffer "a=mid:1").
Proof.
  assert (dedupKey "offer" (longOffer "a=mid:0")
          = dedupKey "offer" (longOffer "a=mid:1")) as Hk by run.
  split; [exact Hk|].
  destruct (dedupKey_injective "offer" "offer" (longOffer "a=mid:0")
              (longOffer "a=mid:1"))
    as (_ & _ & _ & _ & Hp); [run | run | run | run | run | run | run | run | |].
  - exact Hk.
  - exact Hp.
Defined.


